(** * Telegram_Depiler: the dashboard and the download core it drives

    Shallow embedding of [frontend/src/pages/Dashboard.tsx] (rule form,
    task controls, polling) together with the parts of the
    download core that the repository's backend implements and that are
    not part of the sources at hand; those are marked
    "Modelled from the spec". *)

From Stdlib Require Import ZArith NArith Lia Ascii String List Bool QArith Qround Lqa.
From stdpp Require Import base gmap list strings pretty.

Import ListNotations.
Local Open Scope N_scope.

(* ===================================================================== *)
(** ** Rule form and [handleSaveRule] *)
(* ===================================================================== *)

Module RuleForm.

Inductive match_mode : Type := MAll | MInclude | MExclude.

Inductive rule_mode : Type := Monitor | History.

(** The form's state variables ([formChatId] is [number | ""]; the empty
    choice is modelled as [None]). *)
Record rule_form : Type := {
  formChatId : option Z;
  formMode : rule_mode;
  formExtensions : string;
  formSizeRange : string;
  formSaveDir : string;
  formFilenameTemplate : string;
  formMatchMode : match_mode;
  formIncludeKeywords : string;
  formExcludeKeywords : string;
}.

(** The [ruleData] object sent to [POST /group-rules] or
    [PUT /group-rules/:id]; [null] is [None]. *)
Record rule_data : Type := {
  chat_id : Z;
  mode : rule_mode;
  include_extensions : option string;
  size_range : string;
  save_dir : option string;
  filename_template : option string;
  rd_match_mode : match_mode;
  include_keywords : option string;
  exclude_keywords : option string;
  enabled : bool;
}.

(** [s || null] on a string *)
Definition or_null (s : string) : option string :=
  if String.eqb s "" then None else Some s.

(** [s || d] on a string *)
Definition or_default (s d : string) : string :=
  if String.eqb s "" then d else s.

Definition match_mode_eqb (a b : match_mode) : bool :=
  match a, b with
  | MAll, MAll | MInclude, MInclude | MExclude, MExclude => true
  | _, _ => false
  end.

(** [handleSaveRule]: [None] when [!formChatId] returns early (no chat
    chosen, or the chat id [0]); otherwise the payload it sends. *)
Definition handleSaveRule (f : rule_form) : option rule_data :=
  match formChatId f with
  | None => None
  | Some c =>
      if Z.eqb c 0 then None
      else Some {|
        chat_id := c;
        mode := formMode f;
        include_extensions := or_null (formExtensions f);
        size_range := or_default (formSizeRange f) "0";
        save_dir := or_null (formSaveDir f);
        filename_template := or_null (formFilenameTemplate f);
        rd_match_mode := formMatchMode f;
        include_keywords :=
          if match_mode_eqb (formMatchMode f) MInclude
          then Some (formIncludeKeywords f) else None;
        exclude_keywords :=
          if match_mode_eqb (formMatchMode f) MExclude
          then Some (formExcludeKeywords f) else None;
        enabled := true;
      |}
  end.

End RuleForm.

(* ===================================================================== *)
(** ** HTTP requests issued by the dashboard *)
(* ===================================================================== *)

Module Http.

Inductive method : Type := GET | POST | PUT | DELETE.

(** An axios call: method, URL relative to [/api], optional JSON body. *)
Record request : Type := {
  meth : method;
  url : string;
  body : option string;
}.

Definition mk (m : method) (u : string) : request :=
  {| meth := m; url := u; body := None |}.

(** [`/downloads/${id}`] *)
Definition download_url (id : N) : string := ("/downloads/" +:+ pretty id)%string.

Definition get_downloads : request := mk GET "/downloads".
Definition get_logs : request := mk GET "/logs?limit=50".
Definition pause_req (id : N) : request := mk POST (download_url id +:+ "/pause").
Definition resume_req (id : N) : request := mk POST (download_url id +:+ "/resume").
Definition priority_req (id : N) : request := mk POST (download_url id +:+ "/priority").
Definition delete_req (id : N) : request := mk DELETE (download_url id).

Example delete_req_7 : delete_req 7 = mk DELETE "/downloads/7".
Proof. reflexivity. Qed.

End Http.

(* ===================================================================== *)
(** ** Task list on the dashboard: rows, controls, bulk actions *)
(* ===================================================================== *)

Module Dashboard.
Import Http.

(** [type DownloadRecord] (the fields the handlers read). *)
Record DownloadRecord : Type := {
  rec_id : N;
  file_name : string;
  status : string;
  progress : N;
  error : option string;
}.

Inductive action : Type := APause | AResume | APriority | ADelete.

(** The buttons of the "operations" cell of one row of the task table. *)
Definition row_actions (r : DownloadRecord) : list action :=
  (if String.eqb (status r) "downloading" then [APause] else []) ++
  (if String.eqb (status r) "paused" then [AResume] else []) ++
  (if String.eqb (status r) "downloading" || String.eqb (status r) "pending"
      || String.eqb (status r) "queued" || String.eqb (status r) "paused"
   then [APriority] else []) ++
  [ADelete].

(** The rows of the two tabs: [downloadTab === "downloading"] shows every
    record whose status is not [completed]; the other tab the completed
    ones. *)
Definition tab_rows (downloading_tab : bool) (ds : list DownloadRecord)
  : list DownloadRecord :=
  List.filter (fun r => if downloading_tab
                   then negb (String.eqb (status r) "completed")
                   else String.eqb (status r) "completed") ds.

(** [setInterval(() => { fetchDownloads(); fetchLogs(); }, 2000)] *)
Definition poll_interval_ms : N := 2000.
Definition poll_tick : list request := [get_downloads; get_logs].

Section Handlers.

(** The backend answering a request: its new state and whether the call
    resolved ([true]) or threw ([false]). *)
Variable St : Type.
Variable serve : St -> request -> St * bool.

(** [for (const download of xs) { try { await api.post(...); successCount++ }
    catch { } }]: the state, the requests in order, the success count. *)
Fixpoint bulk_loop (req : N -> request) (st : St) (xs : list DownloadRecord)
    (successCount : nat) : St * list request * nat :=
  match xs with
  | [] => (st, [], successCount)
  | d :: xs' =>
      let '(st1, ok) := serve st (req (rec_id d)) in
      let '(st2, rs, n) :=
        bulk_loop req st1 xs' (if ok then S successCount else successCount) in
      (st2, req (rec_id d) :: rs, n)
  end.

(** [await fetchDownloads()]: its failure is caught inside. *)
Definition fetchDownloads (st : St) : St := fst (serve st get_downloads).

(** Shared shape of [handlePauseAll] and [handleResumeAll]: the selected
    records, the per-record request; [None] is the "nothing to do"
    notification, [Some n] the "n tasks" one. *)
Definition bulk_handler (sel : DownloadRecord -> bool) (req : N -> request)
    (st : St) (downloads : list DownloadRecord)
    : St * list request * option nat :=
  let xs := List.filter sel downloads in
  match xs with
  | [] => (st, [], None)
  | _ =>
      let '(st1, rs, n) := bulk_loop req st xs 0 in
      (fetchDownloads st1, rs ++ [get_downloads], Some n)
  end.

Definition is_pausable (d : DownloadRecord) : bool :=
  String.eqb (status d) "downloading" || String.eqb (status d) "queued".

Definition is_paused (d : DownloadRecord) : bool :=
  String.eqb (status d) "paused".

Definition handlePauseAll := bulk_handler is_pausable pause_req.
Definition handleResumeAll := bulk_handler is_paused resume_req.

(** [handleDeleteDownload]: [confirmed] is the answer of
    [window.confirm]. *)
Definition handleDeleteDownload (confirmed : bool) (st : St) (downloadId : N)
    : St * list request :=
  if confirmed then
    let '(st1, ok) := serve st (delete_req downloadId) in
    if ok then (fetchDownloads st1, [delete_req downloadId; get_downloads])
    else (st1, [delete_req downloadId])
  else (st, []).

(** The specification-level view of a run of requests: each one served in
    turn from the state the previous one left, with its outcome. *)
Fixpoint serve_all (st : St) (rs : list request) : St * list bool :=
  match rs with
  | [] => (st, [])
  | r :: rs' =>
      let '(st1, ok) := serve st r in
      let '(st2, oks) := serve_all st1 rs' in (st2, ok :: oks)
  end.

End Handlers.

End Dashboard.

(* ===================================================================== *)
(** ** String helpers shared by the rule matcher *)
(* ===================================================================== *)

Module Str.

(** [s.split(sep)] of JavaScript on a one-character separator. *)
Fixpoint split_on (sep : ascii) (s : string) : list string :=
  match s with
  | EmptyString => [""%string]
  | String c s' =>
      let parts := split_on sep s' in
      if Ascii.eqb c sep then ""%string :: parts
      else match parts with
           | p :: ps => String c p :: ps
           | [] => [String c ""]
           end
  end.

(** [s.includes(c)] on a one-character needle. *)
Fixpoint has_char (c : ascii) (s : string) : bool :=
  match s with
  | EmptyString => false
  | String x s' => Ascii.eqb x c || has_char c s'
  end.

Definition is_digit (c : ascii) : bool :=
  (Ascii.nat_of_ascii "0" <=? Ascii.nat_of_ascii c)%nat &&
  (Ascii.nat_of_ascii c <=? Ascii.nat_of_ascii "9")%nat.

Fixpoint all_digits (s : string) : bool :=
  match s with
  | EmptyString => true
  | String c s' => is_digit c && all_digits s'
  end.

(** A non-empty string of decimal digits. *)
Definition is_numeral (s : string) : bool :=
  negb (String.eqb s "") && all_digits s.

Fixpoint dec_value_acc (acc : N) (s : string) : N :=
  match s with
  | EmptyString => acc
  | String c s' =>
      dec_value_acc (10 * acc + N.of_nat (Ascii.nat_of_ascii c - 48)) s'
  end.

Definition dec_value (s : string) : N := dec_value_acc 0 s.

Definition parse_dec (s : string) : option N :=
  if is_numeral s then Some (dec_value s) else None.

Lemma app_cons (c : ascii) (a b : string) :
  String c a +:+ b = String c (a +:+ b).
Proof. reflexivity. Qed.

Lemma app_nil_l (b : string) : EmptyString +:+ b = b.
Proof. reflexivity. Qed.

Lemma app_nil_r (a : string) : a +:+ EmptyString = a.
Proof. induction a as [|c a IH]; [done|]. rewrite app_cons, IH. done. Qed.

Lemma split_on_no_sep (sep : ascii) (a : string) :
  has_char sep a = false -> split_on sep a = [a].
Proof.
  induction a as [|c a IH]; simpl; [done|].
  intros H. apply orb_false_iff in H as [H1 H2].
  rewrite IH by done. rewrite H1. done.
Qed.

Lemma split_on_app_sep (sep : ascii) (a b : string) :
  has_char sep a = false ->
  split_on sep (a +:+ String sep b) = a :: split_on sep b.
Proof.
  induction a as [|c a IH]; simpl; intros H.
  - rewrite Ascii.eqb_refl. done.
  - apply orb_false_iff in H as [H1 H2].
    rewrite H1, (IH H2). done.
Qed.

Lemma all_digits_no_dash (s : string) :
  all_digits s = true -> has_char "-" s = false.
Proof.
  induction s as [|c s IH]; simpl; [done|].
  intros H. apply andb_true_iff in H as [H1 H2].
  rewrite IH by done. rewrite orb_false_r.
  destruct (Ascii.eqb c "-") eqn:E; [|done].
  apply Ascii.eqb_eq in E. subst. discriminate.
Qed.

End Str.

(* ===================================================================== *)
(** ** Size range of a rule *)
(* ===================================================================== *)

Module SizeRange.
Import Str.

(** How the rule card reads [rule.size_range] (Dashboard.tsx, "体积范围"):
    no line for [""] or ["0"]; [range.includes("-")] splits on ["-"] and
    shows [min || "0"] to [max]; otherwise [≥ range]. *)
Inductive view : Type :=
| VUnrestricted
| VAtLeast (n : string)
| VBetween (lo hi : string).

Definition size_range_view (range : string) : view :=
  if String.eqb range "" || String.eqb range "0" then VUnrestricted
  else if has_char "-" range then
    match split_on "-" range with
    | mn :: mx :: _ => VBetween (RuleForm.or_default mn "0") mx
    | [mn] => VBetween (RuleForm.or_default mn "0") ""
    | [] => VBetween "0" ""
    end
  else VAtLeast range.

(** Modelled from the spec: the backend's size filter, which is not among
    the sources (§4.1 step 2).  ["0"] is unrestricted, ["<N>"] is a lower
    bound, ["<A>-<B>"] an inclusive range with [A] defaulting to 0; any
    other string is a ValidationError ([None]).  Bounds are in MB of
    [2^20] bytes, sizes in bytes. *)
Inductive range : Type :=
| RUnrestricted
| RAtLeast (n : N)
| RBetween (lo hi : N).

Definition MB : N := 1048576.

Definition parse_size_range (r : string) : option range :=
  if String.eqb r "0" then Some RUnrestricted
  else match split_on "-" r with
       | [s] => n ← parse_dec s; Some (RAtLeast n)
       | [a; b] =>
           lo ← (if String.eqb a "" then Some 0 else parse_dec a);
           hi ← parse_dec b;
           Some (RBetween lo hi)
       | _ => None
       end.

Definition range_accepts (rg : range) (size : N) : bool :=
  match rg with
  | RUnrestricted => true
  | RAtLeast n => n * MB <=? size
  | RBetween lo hi => (lo * MB <=? size) && (size <=? hi * MB)
  end.

Definition size_accepts (r : string) (size : N) : option bool :=
  rg ← parse_size_range r; Some (range_accepts rg size).

Example size_10 : size_accepts "10" (9 * MB) = Some false.
Proof. reflexivity. Qed.
Example size_10_100 : size_accepts "10-100" (100 * MB) = Some true.
Proof. reflexivity. Qed.
Example size_0_100 : size_accepts "0-100" 0 = Some true.
Proof. reflexivity. Qed.
Example size_dash_100 : size_accepts "-100" (101 * MB) = Some false.
Proof. reflexivity. Qed.

End SizeRange.

(* ===================================================================== *)
(** ** Extension filter of a rule *)
(* ===================================================================== *)

Module ExtFilter.

Definition lower_ascii (c : ascii) : ascii :=
  let n := Ascii.nat_of_ascii c in
  if (65 <=? n)%nat && (n <=? 90)%nat then Ascii.ascii_of_nat (n + 32) else c.

Fixpoint lower (s : string) : string :=
  match s with
  | EmptyString => EmptyString
  | String c s' => String (lower_ascii c) (lower s')
  end.

Definition strip_dot (s : string) : string :=
  match s with
  | String "." s' => s'
  | _ => s
  end.

Definition norm_ext (s : string) : string := lower (strip_dot s).

(** The allow-set of a saved rule: [include_extensions] ([formExtensions
    || null]) split on commas; [null] is the empty set. *)
Definition allow_set (include_extensions : option string) : list string :=
  match include_extensions with
  | None => []
  | Some s => Str.split_on "," s
  end.

(** Modelled from the spec: the backend's extension filter (§4.1 step 1),
    which is not among the sources: pass when the allow-set is empty, or
    when the extension, lower-cased and without its leading dot, equals an
    entry normalised the same way. *)
Definition ext_pass (allow : list string) (ext : string) : bool :=
  match allow with
  | [] => true
  | _ => existsb (fun a => String.eqb (norm_ext a) (norm_ext ext)) allow
  end.

Example ext_mp4 : ext_pass (allow_set (Some "mp4,MKV")) ".mkv" = true.
Proof. reflexivity. Qed.
Example ext_pdf : ext_pass (allow_set (Some "mp4,mkv")) "pdf" = false.
Proof. reflexivity. Qed.

End ExtFilter.

(* ===================================================================== *)
(** ** Filename templates *)
(* ===================================================================== *)

Module Template.

(** The identity values of a task that a template may refer to. *)
Record identity : Type := {
  id_task_id : string;
  id_message_id : string;
  id_chat_title : string;
  id_timestamp : string;
  id_file_name : string;
  id_year : string;
  id_month : string;
  id_day : string;
}.

(** Modelled from the spec: the backend's placeholder table (§4.2), which
    is not among the sources; the form lists the first five names. *)
Definition placeholder_value (v : identity) (name : string) : string :=
  if String.eqb name "task_id" then id_task_id v
  else if String.eqb name "message_id" then id_message_id v
  else if String.eqb name "chat_title" then id_chat_title v
  else if String.eqb name "timestamp" then id_timestamp v
  else if String.eqb name "file_name" then id_file_name v
  else if String.eqb name "year" then id_year v
  else if String.eqb name "month" then id_month v
  else if String.eqb name "day" then id_day v
  else "".

(** Modelled from the spec: the backend's template expansion (§4.2), not
    among the sources.  A left-to-right scan: text outside braces is
    copied; [{name}] is replaced by the placeholder's value; an opening
    brace that is never closed is kept literally.  [buf] holds the name
    read since the last [{]. *)
Fixpoint expand_go (v : identity) (buf : option string) (s : string) : string :=
  match s, buf with
  | EmptyString, None => EmptyString
  | EmptyString, Some b => String "{" b
  | String c s', None =>
      if Ascii.eqb c "{" then expand_go v (Some EmptyString) s'
      else String c (expand_go v None s')
  | String c s', Some b =>
      if Ascii.eqb c "}" then placeholder_value v b +:+ expand_go v None s'
      else expand_go v (Some (b +:+ String c EmptyString)) s'
  end.

Definition expand (v : identity) (template : string) : string :=
  expand_go v None template.

(** A template as the spec describes it: literal characters and
    placeholder tokens. *)
Inductive token : Type :=
| Lit (c : ascii)
| Ph (name : string).

Definition render_token (t : token) : string :=
  match t with
  | Lit c => String c EmptyString
  | Ph name => "{" +:+ name +:+ "}"
  end.

Definition render (ts : list token) : string :=
  foldr (fun t acc => render_token t +:+ acc) EmptyString ts.

(** A literal is not an opening brace; a name holds no closing brace. *)
Definition token_ok (t : token) : bool :=
  match t with
  | Lit c => negb (Ascii.eqb c "{")
  | Ph name => negb (Str.has_char "}" name)
  end.

Definition subst_token (v : identity) (t : token) : string :=
  match t with
  | Lit c => String c EmptyString
  | Ph name => placeholder_value v name
  end.

Definition sample : identity :=
  {| id_task_id := "7"; id_message_id := "42"; id_chat_title := "g";
     id_timestamp := "1700000000"; id_file_name := "a.mp4";
     id_year := "2026"; id_month := "10"; id_day := "18" |}.

Example expand_sample :
  expand sample "{task_id}_{year}-{month}_{nope}_{file_name}" = "7_2026-10__a.mp4".
Proof. reflexivity. Qed.

Lemma string_app_assoc (a b c : string) : (a +:+ b) +:+ c = a +:+ (b +:+ c).
Proof.
  induction a as [|x a IH]; [done|].
  rewrite !Str.app_cons, IH. done.
Qed.

Lemma expand_go_name (v : identity) (b name rest : string) :
  Str.has_char "}" name = false ->
  expand_go v (Some b) (name +:+ String "}" rest)
  = placeholder_value v (b +:+ name) +:+ expand_go v None rest.
Proof.
  revert b. induction name as [|c name IH]; intros b H.
  - rewrite Str.app_nil_l, Str.app_nil_r. simpl. done.
  - rewrite Str.app_cons. simpl in H. apply orb_false_iff in H as [H1 H2].
    simpl. rewrite H1, IH by done. rewrite string_app_assoc. done.
Qed.

End Template.

(* ===================================================================== *)
(** ** Task scheduler *)
(* ===================================================================== *)

Module Scheduler.

Inductive status : Type :=
| Pending | Queued | Downloading | Paused | Completed | Failed.

Definition status_eqb (a b : status) : bool :=
  match a, b with
  | Pending, Pending | Queued, Queued | Downloading, Downloading
  | Paused, Paused | Completed, Completed | Failed, Failed => true
  | _, _ => false
  end.

(** The [status] string of a [DownloadRecord] returned by [/downloads]. *)
Definition status_string (s : status) : string :=
  match s with
  | Pending => "pending" | Queued => "queued" | Downloading => "downloading"
  | Paused => "paused" | Completed => "completed" | Failed => "failed"
  end.

Record task : Type := {
  t_status : status;
  t_priority : bool;
  t_error : option string;
}.

Definition with_status (st : status) (t : task) : task :=
  {| t_status := st; t_priority := t_priority t; t_error := t_error t |}.

Definition with_priority (t : task) : task :=
  {| t_status := t_status t; t_priority := true; t_error := t_error t |}.

(** Task records by id, the queue of queued ids (priority-flagged ones
    first, FIFO within each class) and the concurrency bound N. *)
Record sched : Type := {
  tasks : gmap N task;
  queue : list N;
  limit : nat;
}.

Inductive err : Type := NotFoundError | IllegalStateError.

Inductive result : Type :=
| ROk
| RErr (e : err)
| RRows (rows : list (N * task)).

Inductive op : Type :=
| Enqueue (id : N) (priority : bool)
| SetPriority (id : N)
| Pause (id : N)
| Resume (id : N)
| Delete (id : N) (deleteFile : bool)
| TransferError (id : N) (detail : string)
| Complete (id : N)
| Promote
| Query.

Definition is_prio (ts : gmap N task) (x : N) : bool :=
  match ts !! x with Some t => t_priority t | None => false end.

(** Insert behind the priority-flagged prefix of the queue. *)
Fixpoint insert_prio (ts : gmap N task) (id : N) (q : list N) : list N :=
  match q with
  | [] => [id]
  | x :: q' => if is_prio ts x then x :: insert_prio ts id q' else id :: q
  end.

Definition remove_id (id : N) (q : list N) : list N :=
  List.filter (fun x => negb (N.eqb x id)) q.

(** Put [id] back into the queue, honouring its priority flag. *)
Definition requeue (ts : gmap N task) (id : N) (q : list N) : list N :=
  if is_prio ts id then insert_prio ts id (remove_id id q)
  else remove_id id q ++ [id].

Definition downloading_count (ts : gmap N task) : nat :=
  length (List.filter (fun p => status_eqb (t_status p.2) Downloading)
                      (map_to_list ts)).

Definition mk_sched (ts : gmap N task) (q : list N) (s : sched) : sched :=
  {| tasks := ts; queue := q; limit := limit s |}.

(** Modelled from the spec: the backend's scheduler (§4.3, §7), which is
    not among the sources.  Each operation's own transition; promotion of
    the next queued task into a free slot is the separate [Promote] step.
    An operation not valid in the task's status is an IllegalStateError
    (the taxonomy of §7 and the state machine of §8). *)
Definition exec (s : sched) (o : op) : sched * result :=
  match o with
  | Enqueue id prio =>
      match tasks s !! id with
      | Some _ => (s, ROk)
      | None =>
          let ts := <[id := {| t_status := Queued; t_priority := prio;
                               t_error := None |}]> (tasks s) in
          (mk_sched ts (requeue ts id (queue s)) s, ROk)
      end
  | SetPriority id =>
      match tasks s !! id with
      | None => (s, RErr NotFoundError)
      | Some t =>
          match t_status t with
          | Completed | Failed => (s, RErr IllegalStateError)
          | Queued =>
              let ts := <[id := with_priority t]> (tasks s) in
              (mk_sched ts (requeue ts id (queue s)) s, ROk)
          | _ => (mk_sched (<[id := with_priority t]> (tasks s)) (queue s) s, ROk)
          end
      end
  | Pause id =>
      match tasks s !! id with
      | None => (s, RErr NotFoundError)
      | Some t =>
          match t_status t with
          | Queued | Downloading =>
              (mk_sched (<[id := with_status Paused t]> (tasks s))
                        (remove_id id (queue s)) s, ROk)
          | _ => (s, RErr IllegalStateError)
          end
      end
  | Resume id =>
      match tasks s !! id with
      | None => (s, RErr NotFoundError)
      | Some t =>
          match t_status t with
          | Paused =>
              let ts := <[id := with_status Queued t]> (tasks s) in
              (mk_sched ts (requeue ts id (queue s)) s, ROk)
          | _ => (s, RErr IllegalStateError)
          end
      end
  | Delete id _ =>
      match tasks s !! id with
      | None => (s, RErr NotFoundError)
      | Some _ => (mk_sched (delete id (tasks s)) (remove_id id (queue s)) s, ROk)
      end
  | TransferError id e =>
      match tasks s !! id with
      | None => (s, RErr NotFoundError)
      | Some t =>
          match t_status t with
          | Downloading =>
              (mk_sched (<[id := {| t_status := Failed;
                                    t_priority := t_priority t;
                                    t_error := Some e |}]> (tasks s))
                        (queue s) s, ROk)
          | _ => (s, RErr IllegalStateError)
          end
      end
  | Complete id =>
      match tasks s !! id with
      | None => (s, RErr NotFoundError)
      | Some t =>
          match t_status t with
          | Downloading =>
              (mk_sched (<[id := with_status Completed t]> (tasks s)) (queue s) s, ROk)
          | _ => (s, RErr IllegalStateError)
          end
      end
  | Promote =>
      if (downloading_count (tasks s) <? limit s)%nat then
        match queue s with
        | [] => (s, ROk)
        | x :: q =>
            match tasks s !! x with
            | Some t =>
                if status_eqb (t_status t) Queued
                then (mk_sched (<[x := with_status Downloading t]> (tasks s)) q s, ROk)
                else (mk_sched (tasks s) q s, ROk)
            | None => (mk_sched (tasks s) q s, ROk)
            end
        end
      else (s, ROk)
  | Query => (s, RRows (map_to_list (tasks s)))
  end.

Fixpoint run (s : sched) (os : list op) : sched :=
  match os with
  | [] => s
  | o :: os' => run (fst (exec s o)) os'
  end.

Definition is_query (o : op) : bool :=
  match o with Query => true | _ => false end.

Definition s0 : sched := {| tasks := ∅; queue := []; limit := 1 |}.

Example run_sample :
  (run s0 [Enqueue 1 false; Enqueue 2 false; Enqueue 3 true; Promote;
           Query; TransferError 3 "io"]).(tasks) !! 3
  = Some {| t_status := Failed; t_priority := true; t_error := Some "io"%string |}.
Proof. vm_compute. reflexivity. Qed.

End Scheduler.

(* ===================================================================== *)
(** ** Path strings of the directory browser *)
(* ===================================================================== *)

Module Paths.

(** [xs.join(sep)] *)
Fixpoint join (sep : string) (xs : list string) : string :=
  match xs with
  | [] => EmptyString
  | [x] => x
  | x :: xs' => x +:+ sep +:+ join sep xs'
  end.

(** [path.split("/").slice(0, -1).join("/")]: the parent used by the
    "← 返回" button and by [handleEditRule] for the browse path. *)
Definition parentPath (path : string) : string :=
  join "/" (removelast (Str.split_on "/" path)).

(** [path.split("/").pop() || ""]: the default name offered by
    [handleRenameDirectory]. *)
Definition lastSegment (path : string) : string :=
  match last (Str.split_on "/" path) with
  | Some x => RuleForm.or_default x ""
  | None => ""
  end.

(** [handleEditRule]: [rule.save_dir ? parent : ""] *)
Definition editBrowsePath (save_dir : option string) : string :=
  match save_dir with
  | Some d => if String.eqb d "" then "" else parentPath d
  | None => ""
  end.

End Paths.

(* ===================================================================== *)
(** ** Extension shortcuts of the rule form *)
(* ===================================================================== *)

Module ExtButtons.
Import Paths.

(** JavaScript white space ([\s], and what [trim] removes) among the code
    units below 256: tab, line feed, vertical tab, form feed, carriage
    return, space and the no-break space U+00A0. *)
Definition js_space (c : ascii) : bool :=
  Ascii.is_space c || Ascii.eqb c "160".

(** [x.trim()] is the empty string exactly when [x] has only white space. *)
Fixpoint blank (x : string) : bool :=
  match x with
  | EmptyString => true
  | String c x' => js_space c && blank x'
  end.

(** [formExtensions.split(",").filter(x => x.trim())] *)
Definition exts (s : string) : list string :=
  List.filter (fun x => negb (blank x)) (Str.split_on "," s).

(** The "+ MP4", "+ JPG" ... buttons: unless one of [guard] is already an
    entry, append [added] and write the list back joined by commas. *)
Definition quick_add (guard added : list string) (s : string) : string :=
  let xs := exts s in
  if existsb (fun g => existsb (String.eqb g) xs) guard then s
  else join "," (xs ++ added).

Definition add_mp4 := quick_add ["mp4"] ["mp4"].
Definition add_jpg := quick_add ["jpg"; "jpeg"] ["jpg"; "jpeg"].

(** The checkboxes of the second rule form:
    [formExtensions.split(",").filter(x => x)], then either append the
    type's entries or drop every entry equal to one of them. *)
Definition exts2 (s : string) : list string :=
  List.filter (fun x => negb (String.eqb x "")) (Str.split_on "," s).

Definition check (added : list string) (s : string) : string :=
  join "," (exts2 s ++ added).

Definition uncheck (dropped : list string) (s : string) : string :=
  join "," (List.filter (fun x => negb (existsb (String.eqb x) dropped)) (exts2 s)).

(** [formExtensions.includes(name)]: a substring test. *)
Fixpoint includes (p s : string) : bool :=
  String.prefix p s ||
  match s with
  | EmptyString => false
  | String _ s' => includes p s'
  end.

(** A click on the checkbox of [name] ([checked={formExtensions.includes(name)}]):
    React reports the negated state, so a shown box is unchecked and a hidden
    one checked. *)
Definition checkbox_change (name : string) (entries : list string) (s : string)
  : string :=
  if includes name s then uncheck entries s else check entries s.

Example add_mp4_twice : add_mp4 (add_mp4 "mkv, ,") = "mkv,mp4".
Proof. reflexivity. Qed.

End ExtButtons.

(* ===================================================================== *)
(** ** Progress cell of a task row *)
(* ===================================================================== *)

Module ProgressCell.
Local Open Scope Q_scope.

Definition Qmin' (a b : Q) : Q := if Qle_bool a b then a else b.
Definition Qmax' (a b : Q) : Q := if Qle_bool a b then b else a.

(** [Math.round(x)] *)
Definition js_round (x : Q) : Z := Qfloor (x + (1 # 2)).

(** [record.progress || 0] on a number (the backend sends a number). *)
Definition progress_or_zero (p : Q) : Q := if Qeq_bool p 0 then 0 else p.

(** [width: `${Math.min(100, Math.max(0, record.progress || 0))}%`] *)
Definition bar_width (p : Q) : Q := Qmin' 100 (Qmax' 0 (progress_or_zero p)).

(** [{record.progress ? `${Math.round(record.progress)}%` : "0%"}] *)
Definition bar_label (p : Q) : Z := if Qeq_bool p 0 then 0%Z else js_round p.

End ProgressCell.

(* ===================================================================== *)
(** ** Opening the rule form: [handleCreateRule], [handleEditRule] *)
(* ===================================================================== *)

Module RuleEditor.
Import Http RuleForm Paths.

(** [type GroupRule] (the fields [handleEditRule] reads); an optional field
    that is absent or [null] is [None].  [mode] and [match_mode] come from
    the backend's strings through a cast; an absent or empty match mode is
    [None]. *)
Record GroupRule : Type := {
  gr_id : N;
  gr_chat_id : Z;
  gr_mode : rule_mode;
  gr_include_extensions : option string;
  gr_size_range : option string;
  gr_save_dir : option string;
  gr_filename_template : option string;
  gr_match_mode : option match_mode;
  gr_include_keywords : option string;
  gr_exclude_keywords : option string;
  gr_enabled : bool;
}.

(** [x || d] on an optional string *)
Definition opt_or (x : option string) (d : string) : string :=
  match x with
  | Some s => or_default s d
  | None => d
  end.

Definition default_template : string := "{task_id}_{message_id}_{chat_title}".

(** The editor's state: [editingRuleId], the form, [currentBrowsePath]. *)
Record editor : Type := {
  editingRuleId : option N;
  form : rule_form;
  currentBrowsePath : string;
}.

Definition handleCreateRule : editor := {|
  editingRuleId := None;
  form := {|
    formChatId := None;
    formMode := Monitor;
    formExtensions := "mp4,mp3,jpg";
    formSizeRange := "0";
    formSaveDir := "";
    formFilenameTemplate := default_template;
    formMatchMode := MAll;
    formIncludeKeywords := "";
    formExcludeKeywords := "";
  |};
  currentBrowsePath := "";
|}.

Definition handleEditRule (r : GroupRule) : editor := {|
  editingRuleId := Some (gr_id r);
  form := {|
    formChatId := Some (gr_chat_id r);
    formMode := gr_mode r;
    formExtensions := opt_or (gr_include_extensions r) "";
    formSizeRange := opt_or (gr_size_range r) "0";
    formSaveDir := opt_or (gr_save_dir r) "";
    formFilenameTemplate := opt_or (gr_filename_template r) default_template;
    formMatchMode := match gr_match_mode r with Some m => m | None => MAll end;
    formIncludeKeywords := opt_or (gr_include_keywords r) "";
    formExcludeKeywords := opt_or (gr_exclude_keywords r) "";
  |};
  currentBrowsePath := editBrowsePath (gr_save_dir r);
|}.

(** A click on a dialog of the list: [setFormChatId(d.id)]. *)
Definition choose_chat (c : Z) (e : editor) : editor := {|
  editingRuleId := editingRuleId e;
  form := {|
    formChatId := Some c;
    formMode := formMode (form e);
    formExtensions := formExtensions (form e);
    formSizeRange := formSizeRange (form e);
    formSaveDir := formSaveDir (form e);
    formFilenameTemplate := formFilenameTemplate (form e);
    formMatchMode := formMatchMode (form e);
    formIncludeKeywords := formIncludeKeywords (form e);
    formExcludeKeywords := formExcludeKeywords (form e);
  |};
  currentBrowsePath := currentBrowsePath e;
|}.

(** The call [handleSaveRule] makes: [if (editingRuleId) api.put(...) else
    api.post("/group-rules", ...)]; [None] when it returns early. *)
Definition save_request (e : editor) : option request :=
  match handleSaveRule (form e) with
  | None => None
  | Some _ =>
      Some match editingRuleId e with
           | Some id =>
               if N.eqb id 0 then mk POST "/group-rules"
               else mk PUT ("/group-rules/" +:+ pretty id)
           | None => mk POST "/group-rules"
           end
  end.

End RuleEditor.

(* ===================================================================== *)
(** ** Admin token: interceptors, [RequireAuth], [Login.handleSubmit] *)
(* ===================================================================== *)

Module Auth.

(** [localStorage.getItem("admin_token")] tested with [if (token)]. *)
Definition truthy (t : option string) : bool :=
  match t with
  | Some s => negb (String.eqb s "")
  | None => false
  end.

(** [headers[k] = v] on a plain object (kept as an association list). *)
Fixpoint set_header (k v : string) (hs : list (string * string))
  : list (string * string) :=
  match hs with
  | [] => [(k, v)]
  | (k', v') :: hs' =>
      if String.eqb k k' then (k, v) :: hs' else (k', v') :: set_header k v hs'
  end.

(** [headers[k]] *)
Fixpoint get_header (k : string) (hs : list (string * string)) : option string :=
  match hs with
  | [] => None
  | (k', v) :: hs' => if String.eqb k k' then Some v else get_header k hs'
  end.

(** The request interceptor: [config.headers] ([None] when unset) after it. *)
Definition request_interceptor (token : option string)
    (headers : option (list (string * string))) : option (list (string * string)) :=
  match token with
  | Some t =>
      if String.eqb t "" then headers
      else Some (set_header "X-Admin-Token" t
                  (match headers with Some h => h | None => [] end))
  | None => headers
  end.

(** What the browser holds: the stored token and the current path. *)
Record browser : Type := {
  admin_token : option string;
  pathname : string;
}.

(** The response error interceptor, on an error with HTTP status [status]
    ([None]: no response).  The result: the browser afterwards and whether
    [window.location.href] was assigned.  The error is rethrown in every
    case. *)
Definition on_error (b : browser) (status : option N) : browser * bool :=
  match status with
  | Some s =>
      if N.eqb s 401 then
        if String.eqb (pathname b) "/login"
        then ({| admin_token := None; pathname := pathname b |}, false)
        else ({| admin_token := None; pathname := "/login" |}, true)
      else (b, false)
  | None => (b, false)
  end.

Inductive page : Type := PLogin | PDashboard | PSettings | Redirect (to : string).

(** [RequireAuth]: [if (!token) <Navigate to="/login" />] *)
Definition RequireAuth (token : option string) (child : page) : page :=
  if truthy token then child else Redirect "/login".

(** The routes of [App]. *)
Definition route (token : option string) (path : string) : page :=
  if String.eqb path "/login" then PLogin
  else if String.eqb path "/" then RequireAuth token PDashboard
  else if String.eqb path "/settings" then RequireAuth token PSettings
  else Redirect "/".

(** Following [<Navigate>] elements ([fuel] bounds the chain). *)
Fixpoint render (fuel : nat) (token : option string) (path : string) : page :=
  match fuel with
  | O => route token path
  | S f =>
      match route token path with
      | Redirect p => render f token p
      | pg => pg
      end
  end.









End Auth.

(* ===================================================================== *)
(** ** Settings page: [validateConfig] *)
(* ===================================================================== *)

Module Validate.
Import Str.

(** A deterministic automaton run over a string. *)
Fixpoint dfa_run {Q : Type} (step : Q -> ascii -> Q) (q : Q) (s : string) : Q :=
  match s with
  | EmptyString => q
  | String c s' => dfa_run step (step q c) s'
  end.

(** [/^\d+(,\d+)*$/] *)
Inductive ids_state : Type := IdStart | IdDigits | IdComma | IdFail.

Definition ids_step (q : ids_state) (c : ascii) : ids_state :=
  match q with
  | IdStart | IdComma => if is_digit c then IdDigits else IdFail
  | IdDigits =>
      if is_digit c then IdDigits
      else if Ascii.eqb c "," then IdComma else IdFail
  | IdFail => IdFail
  end.

Definition ids_accept (q : ids_state) : bool :=
  match q with IdDigits => true | _ => false end.

Definition ids_match (s : string) : bool := ids_accept (dfa_run ids_step IdStart s).

(** [[A-Za-z0-9_-]] *)
Definition is_tok_char (c : ascii) : bool :=
  let n := Ascii.nat_of_ascii c in
  ((65 <=? n) && (n <=? 90))%nat || ((97 <=? n) && (n <=? 122))%nat ||
  is_digit c || Ascii.eqb c "_" || Ascii.eqb c "-".

Fixpoint all_tok (s : string) : bool :=
  match s with
  | EmptyString => true
  | String c s' => is_tok_char c && all_tok s'
  end.

(** [/^\d+:[A-Za-z0-9_-]+$/] *)
Inductive bot_state : Type := BStart | BDigits | BColon | BTail | BFail.

Definition bot_step (q : bot_state) (c : ascii) : bot_state :=
  match q with
  | BStart => if is_digit c then BDigits else BFail
  | BDigits =>
      if is_digit c then BDigits
      else if Ascii.eqb c ":" then BColon else BFail
  | BColon | BTail => if is_tok_char c then BTail else BFail
  | BFail => BFail
  end.

Definition bot_accept (q : bot_state) : bool :=
  match q with BTail => true | _ => false end.

Definition bot_match (s : string) : bool := bot_accept (dfa_run bot_step BStart s).

(** [/^\+\d{10,15}$/]: [PCount n] after the plus sign and [n] digits. *)
Inductive phone_state : Type := PStart | PCount (n : nat) | PFail.

Definition phone_step (q : phone_state) (c : ascii) : phone_state :=
  match q with
  | PStart => if Ascii.eqb c "+" then PCount 0 else PFail
  | PCount n => if is_digit c && (n <? 15)%nat then PCount (S n) else PFail
  | PFail => PFail
  end.

Definition phone_accept (q : phone_state) : bool :=
  match q with PCount n => (10 <=? n)%nat | _ => false end.

Definition phone_match (s : string) : bool := phone_accept (dfa_run phone_step PStart s).

(** [s.replace(/\s/g, "")] *)
Fixpoint remove_spaces (s : string) : string :=
  match s with
  | EmptyString => EmptyString
  | String c s' =>
      if ExtButtons.js_space c then remove_spaces s' else String c (remove_spaces s')
  end.

(** The fields [validateConfig] reads; [proxy_port] is [proxy.port], with
    the default proxy's port [0] when [config.proxy] is unset. *)
Record ConfigState : Type := {
  api_id : string;
  api_hash : string;
  phone_number : string;
  bot_token : option string;
  admin_user_ids : option string;
  proxy_port : Z;
}.

Definition opt_truthy (s : option string) : bool :=
  match s with Some x => negb (String.eqb x "") | None => false end.

Definition opt_str (s : option string) : string :=
  match s with Some x => x | None => "" end.

(** The keys of the [errors] object, in insertion order. *)
Definition validateConfig (c : ConfigState) : list string :=
  (if negb (is_numeral (api_id c)) then ["api_id"] else []) ++
  (if String.eqb (api_hash c) "" || negb (Nat.eqb (String.length (api_hash c)) 32)
   then ["api_hash"] else []) ++
  (if negb (String.eqb (phone_number c) "") && negb (phone_match (phone_number c))
   then ["phone_number"] else []) ++
  (if opt_truthy (bot_token c) && negb (bot_match (opt_str (bot_token c)))
   then ["bot_token"] else []) ++
  (if opt_truthy (admin_user_ids c)
      && negb (ids_match (remove_spaces (opt_str (admin_user_ids c))))
   then ["admin_user_ids"] else []) ++
  (if negb (Z.eqb (proxy_port c) 0)
      && (Z.ltb (proxy_port c) 1 || Z.ltb 65535 (proxy_port c))
   then ["proxy_port"] else []).

End Validate.

(* ===================================================================== *)
(** ** Settings page: the Telegram login steps *)
(* ===================================================================== *)

Module LoginFlow.

Inductive LoginStep : Type := Idle | VerifyCode | SubmitPassword | Connected.

Definition step_eqb (a b : LoginStep) : bool :=
  match a, b with
  | Idle, Idle | VerifyCode, VerifyCode | SubmitPassword, SubmitPassword
  | Connected, Connected => true
  | _, _ => false
  end.

Record session : Type := {
  loginStep : LoginStep;
  code : string;
  password : string;
  passwordHint : option string;
}.

Definition initial : session :=
  {| loginStep := Idle; code := ""; password := ""; passwordHint := None |}.

Definition cleared (st : LoginStep) : session :=
  {| loginStep := st; code := ""; password := ""; passwordHint := None |}.

(** [sendCode]: [Some next] is a response with [data.next_step = next]
    ([None] inside when absent); [None] a failed call. *)
Definition sendCode (s : session) (r : option (option string)) : session :=
  match r with
  | Some (Some next) => if String.eqb next "verify_code" then cleared VerifyCode else s
  | _ => s
  end.

(** [restartClient]: [ok] tells whether [POST /auth/restart] resolved. *)
Definition restartClient (s : session) (ok : bool) : session :=
  if ok then cleared Idle else s.

(** The body of [POST /auth/verify]. *)
Definition verify_payload (phone : string) (s : session) : list (string * string) :=
  ("phone_number", phone) ::
  (if step_eqb (loginStep s) SubmitPassword
   then [("step", "password"); ("password", password s)]
   else [("step", "code"); ("code", code s)]).

Inductive verify_answer : Type :=
| VPasswordRequired (hint : option string)
| VConnected
| VOther
| VFailed.

(** [verifyCode] after the answer to its request. *)
Definition verifyCode (s : session) (a : verify_answer) : session :=
  match a with
  | VPasswordRequired h =>
      {| loginStep := SubmitPassword; code := code s; password := password s;
         passwordHint := h |}
  | VConnected => cleared Connected
  | VOther | VFailed => s
  end.

(** [fetchLoginState]: [if (data.is_authorized) setLoginStep("connected")]. *)
Definition fetchLoginState (s : session) (authorized : bool) : session :=
  if authorized
  then {| loginStep := Connected; code := code s; password := password s;
          passwordHint := passwordHint s |}
  else s.

(** The page around the session: the [loading] flag, the request of a
    button that is awaiting its answer, and the number of [/auth/status]
    requests awaiting theirs (one from mounting, one more after each
    successful verification). *)
Inductive request : Type := RSend | RVerify | RRestart.

Definition request_eqb (a b : request) : bool :=
  match a, b with
  | RSend, RSend | RVerify, RVerify | RRestart, RRestart => true
  | _, _ => false
  end.

Record page_state : Type := {
  sess : session;
  busy : bool;
  pending : option request;
  status_pending : nat;
}.

Definition initial_page : page_state :=
  {| sess := initial; busy := false; pending := None; status_pending := 1 |}.

(** A click starts a request ([setLoading(true)]), its answer runs the rest
    of the handler after [await], whatever happened meanwhile, and ends with
    [setLoading(false)].  "发送验证码" and "验证并登录" are disabled while
    loading or connected, "重启客户端" while loading; the code input is
    disabled once connected and the password input is rendered only in the
    [submit_password] step.  The status answers arrive at any time. *)
Inductive event : Type :=
| ESendClick
| ESendAnswer (r : option (option string))
| EVerifyClick
| EVerifyAnswer (a : verify_answer)
| ERestartClick
| ERestartAnswer (ok : bool)
| EStatusAnswer (authorized : bool)
| ETypeCode (v : string)
| ETypePassword (v : string).

Definition with_sess (p : page_state) (s : session) : page_state :=
  {| sess := s; busy := busy p; pending := pending p; status_pending := status_pending p |}.

Definition start (p : page_state) (r : request) : page_state :=
  {| sess := sess p; busy := true; pending := Some r; status_pending := status_pending p |}.

Definition finish (p : page_state) (s : session) (extra_status : nat) : page_state :=
  {| sess := s; busy := false; pending := None;
     status_pending := status_pending p + extra_status |}.

Definition awaiting (p : page_state) (r : request) : bool :=
  match pending p with Some r' => request_eqb r r' | None => false end.

Definition handle (p : page_state) (e : event) : page_state :=
  let s := sess p in
  let connected := step_eqb (loginStep s) Connected in
  match e with
  | ESendClick => if busy p || connected then p else start p RSend
  | ESendAnswer r => if awaiting p RSend then finish p (sendCode s r) 0 else p
  | EVerifyClick => if busy p || connected then p else start p RVerify
  | EVerifyAnswer a =>
      if awaiting p RVerify
      then finish p (verifyCode s a) (match a with VConnected => 1%nat | _ => 0%nat end)
      else p
  | ERestartClick => if busy p then p else start p RRestart
  | ERestartAnswer ok => if awaiting p RRestart then finish p (restartClient s ok) 0 else p
  | EStatusAnswer b =>
      match status_pending p with
      | O => p
      | S n => {| sess := fetchLoginState s b; busy := busy p; pending := pending p;
                  status_pending := n |}
      end
  | ETypeCode v =>
      if connected then p
      else with_sess p {| loginStep := loginStep s; code := v; password := password s;
                          passwordHint := passwordHint s |}
  | ETypePassword v =>
      if step_eqb (loginStep s) SubmitPassword
      then with_sess p {| loginStep := loginStep s; code := code s; password := v;
                          passwordHint := passwordHint s |}
      else p
  end.

Definition run (evs : list event) : page_state := fold_left handle evs initial_page.

(** The status check can mark the page connected while a code request is
    awaiting its answer; the answer then moves it to [verify_code]. *)
Example stale_send_answer :
  loginStep (sess (run [ESendClick; EStatusAnswer true])) = Connected /\
  loginStep (sess (run [ESendClick; EStatusAnswer true;
                        ESendAnswer (Some (Some "verify_code"%string))])) = VerifyCode.
Proof. split; reflexivity. Qed.

End LoginFlow.

(* ===================================================================== *)
(** ** Dialog picker of the second rule form: search and pages *)
(* ===================================================================== *)

Module DialogPicker.
Import ExtButtons.

(** [type Dialog]; a missing [username] is [None]. *)
Record Dialog : Type := {
  d_id : Z;
  title : string;
  username : option string;
  is_group : bool;
}.

(** The filter of [groupDialogs] ([toLowerCase] on ASCII letters). *)
Definition matches (search : string) (d : Dialog) : bool :=
  is_group d &&
  (String.eqb search "" ||
   (negb (String.eqb (title d) "") &&
    includes (ExtFilter.lower search) (ExtFilter.lower (title d))) ||
   match username d with
   | Some u => negb (String.eqb u "") &&
               includes (ExtFilter.lower search) (ExtFilter.lower u)
   | None => false
   end).

Definition groupDialogs (dialogs : list Dialog) (search : string) : list Dialog :=
  List.filter (matches search) dialogs.

Definition pageSize : Z := 10.

(** [Math.ceil(n / pageSize)] *)
Definition totalPages (n : nat) : Z := (Z.of_nat n + pageSize - 1) / pageSize.

(** [xs.slice(a, b)], negative indices counting from the end. *)
Definition slice {A} (xs : list A) (a b : Z) : list A :=
  let len := Z.of_nat (length xs) in
  let norm i := if Z.ltb i 0 then Z.max 0 (len + i) else Z.min i len in
  let s := norm a in
  let e := norm b in
  firstn (Z.to_nat (e - s)) (skipn (Z.to_nat s) xs).

Definition currentPageDialogs (gs : list Dialog) (page : Z) : list Dialog :=
  slice gs (page * pageSize) ((page + 1) * pageSize).

Record picker : Type := {
  dialogPage : Z;
  dialogSearch : string;
}.

Inductive picker_event : Type := Prev | Next | Search (s : string).

(** One event, on the dialog list fetched when the dashboard mounts.  The
    page buttons exist only when the list is not empty and
    [totalPages > 1]; a disabled button does nothing. *)
Definition picker_step (dialogs : list Dialog) (p : picker) (e : picker_event)
  : picker :=
  let gs := groupDialogs dialogs (dialogSearch p) in
  let tp := totalPages (length gs) in
  let shown := negb (Nat.eqb (length gs) 0) && Z.ltb 1 tp in
  match e with
  | Prev =>
      if shown && negb (Z.eqb (dialogPage p) 0)
      then {| dialogPage := Z.max 0 (dialogPage p - 1); dialogSearch := dialogSearch p |}
      else p
  | Next =>
      if shown && negb (Z.leb (tp - 1) (dialogPage p))
      then {| dialogPage := Z.min (tp - 1) (dialogPage p + 1); dialogSearch := dialogSearch p |}
      else p
  | Search s => {| dialogPage := 0; dialogSearch := s |}
  end.

Definition picker0 : picker := {| dialogPage := 0; dialogSearch := "" |}.

Definition picker_run (dialogs : list Dialog) (evs : list picker_event) : picker :=
  fold_left (picker_step dialogs) evs picker0.

End DialogPicker.

(* ===================================================================== *)
(** ** [vite.config.ts]: [readVersionFromRoot] *)
(* ===================================================================== *)

Module ViteConfig.

(** [s.trim()] *)
Fixpoint trim_start (s : string) : string :=
  match s with
  | EmptyString => EmptyString
  | String c s' => if ExtButtons.js_space c then trim_start s' else s
  end.

Fixpoint trim_end (s : string) : string :=
  match s with
  | EmptyString => EmptyString
  | String c s' =>
      let r := trim_end s' in
      if String.eqb r "" && ExtButtons.js_space c then EmptyString else String c r
  end.

Definition trim (s : string) : string := trim_end (trim_start s).

(** What [fs.existsSync] and [fs.readFileSync] see at [<dir>/VERSION]. *)
Inductive version_file : Type := Missing | Content (s : string) | Unreadable.

(** The loop: [dir] is the directory as its list of path components from
    the root, so [path.dirname] drops the last one and the root is its own
    parent.  [Unreadable] is the throw caught by the [try]. *)
Fixpoint lookup (fs : list string -> version_file) (i : nat) (dir : list string)
  : string :=
  match i with
  | O => "dev"
  | S i' =>
      match fs dir with
      | Content c => let t := trim c in if String.eqb t "" then "dev" else t
      | Unreadable => "dev"
      | Missing =>
          let parent := removelast dir in
          if bool_decide (parent = dir) then "dev" else lookup fs i' parent
      end
  end.

Definition readVersionFromRoot (fs : list string -> version_file) (cwd : list string)
  : string := lookup fs 5 cwd.

End ViteConfig.

(* ===================================================================== *)
(** * Properties *)
(* ===================================================================== *)

Import RuleForm.

(** C2: the payload [handleSaveRule] sends to the rule create/update call
    carries at most one keyword list, chosen by [match_mode]: [include]
    sets only [include_keywords], [exclude] only [exclude_keywords], [all]
    neither. *)
Theorem handleSaveRule_keyword_lists (f : rule_form) (p : rule_data) :
  handleSaveRule f = Some p ->
  rd_match_mode p = formMatchMode f /\
  match rd_match_mode p with
  | MInclude => include_keywords p = Some (formIncludeKeywords f)
                /\ exclude_keywords p = None
  | MExclude => include_keywords p = None
                /\ exclude_keywords p = Some (formExcludeKeywords f)
  | MAll => include_keywords p = None /\ exclude_keywords p = None
  end /\
  (include_keywords p = None \/ exclude_keywords p = None).
Proof.
  unfold handleSaveRule. destruct (formChatId f) as [c|]; [|discriminate].
  destruct (Z.eqb c 0); [discriminate|].
  intros H. injection H as <-. simpl.
  destruct (formMatchMode f); simpl; auto.
Qed.

Definition sample_form : rule_form :=
  {| formChatId := Some (-1001234567)%Z; formMode := Monitor;
     formExtensions := "mp4"; formSizeRange := "10-50"; formSaveDir := "";
     formFilenameTemplate := "{task_id}_{message_id}_{chat_title}";
     formMatchMode := MInclude; formIncludeKeywords := "season";
     formExcludeKeywords := "trailer" |}.

Lemma handleSaveRule_keyword_lists_witness :
  exists p, handleSaveRule sample_form = Some p /\
    include_keywords p = Some "season"%string /\ exclude_keywords p = None.
Proof.
  eexists. split; [reflexivity|].
  pose proof (handleSaveRule_keyword_lists sample_form _ eq_refl) as [_ [H _]].
  exact H.
Defined.

Module BulkFacts.
Import Http Dashboard.

Definition count_ok (oks : list bool) : nat := length (List.filter (fun b => b) oks).

Lemma bulk_loop_serve_all (St : Type) (serve : St -> request -> St * bool)
    (req : N -> request) (st : St) (xs : list DownloadRecord) (n : nat) :
  bulk_loop St serve req st xs n =
    (fst (serve_all St serve st (map (fun d => req (rec_id d)) xs)),
     map (fun d => req (rec_id d)) xs,
     (n + count_ok (snd (serve_all St serve st (map (fun d => req (rec_id d)) xs))))%nat).
Proof.
  revert st n. induction xs as [|d xs IH]; intros st n; simpl.
  - f_equal. unfold count_ok. simpl. lia.
  - destruct (serve st (req (rec_id d))) as [st1 ok] eqn:E. rewrite IH.
    destruct (serve_all St serve st1 (map (fun d0 => req (rec_id d0)) xs))
      as [st2 oks] eqn:E2. simpl.
    f_equal. unfold count_ok. destruct ok; simpl; lia.
Qed.

Lemma bulk_handler_spec (St : Type) (serve : St -> request -> St * bool)
    (sel : DownloadRecord -> bool) (req : N -> request) (st : St)
    (downloads : list DownloadRecord) :
  let xs := List.filter sel downloads in
  let reqs := map (fun d => req (rec_id d)) xs in
  bulk_handler St serve sel req st downloads =
    match xs with
    | [] => (st, [], None)
    | _ => (fetchDownloads St serve (fst (serve_all St serve st reqs)),
            reqs ++ [get_downloads],
            Some (count_ok (snd (serve_all St serve st reqs))))
    end.
Proof.
  intros xs reqs. unfold bulk_handler. fold xs.
  destruct xs as [|x xs'] eqn:Exs; [reflexivity|].
  rewrite <- Exs. rewrite bulk_loop_serve_all. subst reqs. rewrite Exs. reflexivity.
Qed.

End BulkFacts.

Import Http Dashboard BulkFacts.

(** C3: [handlePauseAll] sends one pause request for every listed task
    whose status is [downloading] or [queued], and [handleResumeAll] one
    resume request for every [paused] one, in list order, whatever the
    outcome of earlier requests; no other request is sent (nothing is
    undone), and the notification reports the number of requests that
    succeeded (or that there was nothing to do). *)
Theorem bulk_pause_resume_best_effort (St : Type)
    (serve : St -> request -> St * bool) (st : St)
    (downloads : list DownloadRecord) :
  (forall d, In d (List.filter is_pausable downloads) <->
     In d downloads /\ (status d = "downloading"%string \/ status d = "queued"%string)) /\
  (forall d, In d (List.filter is_paused downloads) <->
     In d downloads /\ status d = "paused"%string) /\
  (let xs := List.filter is_pausable downloads in
   let reqs := map (fun d => pause_req (rec_id d)) xs in
   handlePauseAll St serve st downloads =
     match xs with
     | [] => (st, [], None)
     | _ => (fetchDownloads St serve (fst (serve_all St serve st reqs)),
             reqs ++ [get_downloads],
             Some (count_ok (snd (serve_all St serve st reqs))))
     end) /\
  (let xs := List.filter is_paused downloads in
   let reqs := map (fun d => resume_req (rec_id d)) xs in
   handleResumeAll St serve st downloads =
     match xs with
     | [] => (st, [], None)
     | _ => (fetchDownloads St serve (fst (serve_all St serve st reqs)),
             reqs ++ [get_downloads],
             Some (count_ok (snd (serve_all St serve st reqs))))
     end).
Proof.
  split; [|split; [|split]].
  - intros d. rewrite filter_In. unfold is_pausable.
    rewrite orb_true_iff, !String.eqb_eq. tauto.
  - intros d. rewrite filter_In. unfold is_paused. rewrite String.eqb_eq. tauto.
  - apply bulk_handler_spec.
  - apply bulk_handler_spec.
Qed.

(** C5 (counterexample): deleting task 7 from the dashboard sends exactly
    [DELETE /downloads/7] with no body, then re-reads the list; no
    delete-file flag reaches the task-control interface. *)
Lemma delete_request_has_no_file_flag :
  snd (handleDeleteDownload unit (fun st _ => (st, true)) true tt 7)
    = [mk DELETE "/downloads/7"; get_downloads] /\
  body (delete_req 7) = None.
Proof. split; reflexivity. Qed.

(** C5 (as amended): every task row offers delete, whatever its status;
    once confirmed, the dashboard sends [DELETE /downloads/<id>] carrying
    only the id (no delete-file flag), followed at most by read requests;
    and the delete operation removes the task record from every status. *)
Theorem delete_any_status_no_flag :
  (forall r : DownloadRecord, In ADelete (row_actions r)) /\
  (forall (St : Type) (serve : St -> request -> St * bool) st id,
      handleDeleteDownload St serve false st id = (st, [])) /\
  (forall (St : Type) (serve : St -> request -> St * bool) st id,
      exists rest, snd (handleDeleteDownload St serve true st id) = delete_req id :: rest
                   /\ Forall (fun q => meth q = GET) rest) /\
  (forall id, delete_req id
              = {| meth := DELETE; url := ("/downloads/" +:+ pretty id)%string;
                   body := None |}) /\
  (forall (s : Scheduler.sched) id t flag,
      Scheduler.tasks s !! id = Some t ->
      Scheduler.exec s (Scheduler.Delete id flag)
        = (Scheduler.mk_sched (delete id (Scheduler.tasks s))
             (Scheduler.remove_id id (Scheduler.queue s)) s, Scheduler.ROk)).
Proof.
  split; [|split; [|split; [|split]]].
  - intros r. unfold row_actions. rewrite !in_app_iff. right; right; right. left. done.
  - reflexivity.
  - intros St serve st id. unfold handleDeleteDownload.
    destruct (serve st (delete_req id)) as [st1 []].
    + eexists. split; [reflexivity|]. repeat constructor.
    + eexists. split; [reflexivity|]. constructor.
  - reflexivity.
  - intros s id t flag H. simpl. rewrite H. reflexivity.
Qed.

Lemma delete_any_status_no_flag_witness :
  Scheduler.tasks (Scheduler.run Scheduler.s0 [Scheduler.Enqueue 4 false]) !! 4
    = Some {| Scheduler.t_status := Scheduler.Queued; Scheduler.t_priority := false;
              Scheduler.t_error := None |} /\
  Scheduler.exec (Scheduler.run Scheduler.s0 [Scheduler.Enqueue 4 false])
                 (Scheduler.Delete 4 true)
    = (Scheduler.mk_sched
         (delete 4 (Scheduler.tasks (Scheduler.run Scheduler.s0 [Scheduler.Enqueue 4 false])))
         (Scheduler.remove_id 4 (Scheduler.queue (Scheduler.run Scheduler.s0 [Scheduler.Enqueue 4 false])))
         (Scheduler.run Scheduler.s0 [Scheduler.Enqueue 4 false]), Scheduler.ROk).
Proof.
  assert (H : Scheduler.tasks (Scheduler.run Scheduler.s0 [Scheduler.Enqueue 4 false]) !! 4
    = Some {| Scheduler.t_status := Scheduler.Queued; Scheduler.t_priority := false;
              Scheduler.t_error := None |}) by (vm_compute; reflexivity).
  split; [exact H|].
  exact (proj2 (proj2 (proj2 (proj2 delete_any_status_no_flag))) _ 4 _ true H).
Defined.

Module SizeFacts.
Import Str SizeRange.

Lemma has_char_app_sep (c : ascii) (a b : string) : has_char c (a +:+ String c b) = true.
Proof.
  induction a as [|x a IH].
  - simpl. rewrite Ascii.eqb_refl. done.
  - rewrite app_cons. simpl. rewrite IH, orb_true_r. done.
Qed.

Lemma app_sep_not_short (a b : string) (c : ascii) :
  b <> ""%string -> String.eqb (a +:+ String c b) "0" = false /\
                    String.eqb (a +:+ String c b) "" = false.
Proof.
  intros Hb. destruct a as [|x a].
  - rewrite app_nil_l. destruct b as [|y b]; [done|]. split; [|done].
    apply String.eqb_neq. intros E. injection E as _ E. discriminate.
  - rewrite app_cons. split; [|done]. apply String.eqb_neq. intros E.
    injection E as _ E. destruct a; discriminate.
Qed.

Lemma numeral_facts (s : string) :
  is_numeral s = true -> s <> ""%string /\ has_char "-" s = false.
Proof.
  unfold is_numeral. intros H. apply andb_true_iff in H as [H1 H2].
  split.
  - intros ->. discriminate.
  - apply all_digits_no_dash. exact H2.
Qed.

End SizeFacts.

Import Str SizeRange SizeFacts.

(** C1: the size_range grammar.  ["0"] accepts every size; a numeral
    ["<N>"] accepts exactly the sizes of at least [N] MB; ["<A>-<B>"], with
    [A] a numeral or empty (read as 0), accepts exactly the sizes in
    [[A, B]] MB, bounds included.  The rule card reads the same three
    cases, and every accepted or rejected size is decided by the single
    range the string parses to. *)
Theorem size_range_grammar :
  (forall size, size_accepts "0" size = Some true
                /\ size_range_view "0" = VUnrestricted) /\
  (forall s size, is_numeral s = true -> s <> "0"%string ->
     size_accepts s size = Some (dec_value s * MB <=? size)
     /\ size_range_view s = VAtLeast s) /\
  (forall a b size, (a = ""%string \/ is_numeral a = true) -> is_numeral b = true ->
     size_accepts (a +:+ String "-" b) size
       = Some ((dec_value a * MB <=? size) && (size <=? dec_value b * MB))
     /\ size_range_view (a +:+ String "-" b) = VBetween (RuleForm.or_default a "0") b) /\
  (forall r size acc, size_accepts r size = Some acc ->
     exists rg, parse_size_range r = Some rg /\ acc = range_accepts rg size).
Proof.
  split; [|split; [|split]].
  - intros size. split; reflexivity.
  - intros s size Hs Hne. destruct (numeral_facts s Hs) as [Hempty Hdash].
    apply String.eqb_neq in Hne, Hempty.
    split.
    + unfold size_accepts, parse_size_range. rewrite Hne.
      rewrite split_on_no_sep by exact Hdash.
      unfold parse_dec. rewrite Hs. reflexivity.
    + unfold size_range_view. rewrite Hempty, Hne, Hdash. reflexivity.
  - intros a b size Ha Hb.
    destruct (numeral_facts b Hb) as [Hbe Hbd].
    destruct (app_sep_not_short a b "-" Hbe) as [H0 He].
    assert (Had : has_char "-" a = false).
    { destruct Ha as [->|Ha]; [done|]. apply (numeral_facts a Ha). }
    split.
    + unfold size_accepts, parse_size_range. rewrite H0.
      rewrite split_on_app_sep by exact Had.
      rewrite split_on_no_sep by exact Hbd.
      destruct Ha as [->|Ha].
      * simpl. unfold parse_dec. rewrite Hb. reflexivity.
      * destruct (String.eqb a "") eqn:Ea.
        { apply String.eqb_eq in Ea. subst. discriminate. }
        unfold parse_dec. rewrite Ha, Hb. reflexivity.
    + unfold size_range_view. rewrite He, H0, has_char_app_sep. simpl.
      rewrite split_on_app_sep by exact Had.
      rewrite split_on_no_sep by exact Hbd. reflexivity.
  - intros r size acc. unfold size_accepts.
    destruct (parse_size_range r) as [rg|]; simpl; [|discriminate].
    intros H. injection H as <-. eauto.
Qed.

Lemma size_range_grammar_witness :
  size_accepts "10" (10 * MB) = Some true /\
  size_accepts ("10" +:+ String "-" "100") (101 * MB) = Some false.
Proof.
  destruct size_range_grammar as [_ [H2 [H3 _]]].
  split.
  - rewrite (proj1 (H2 "10"%string (10 * MB) eq_refl ltac:(discriminate))).
    reflexivity.
  - rewrite (proj1 (H3 "10"%string "100"%string (101 * MB) (or_intror eq_refl) eq_refl)).
    reflexivity.
Defined.

Module ExtFacts.
Import ExtFilter.

Lemma lower_ascii_idem (c : ascii) : lower_ascii (lower_ascii c) = lower_ascii c.
Proof.
  unfold lower_ascii.
  destruct ((65 <=? Ascii.nat_of_ascii c)%nat && (Ascii.nat_of_ascii c <=? 90)%nat) eqn:E.
  - apply andb_true_iff in E as [E1 E2].
    apply Nat.leb_le in E1, E2.
    rewrite Ascii.nat_ascii_embedding by lia.
    replace ((65 <=? Ascii.nat_of_ascii c + 32)%nat && (Ascii.nat_of_ascii c + 32 <=? 90)%nat)
      with false; [reflexivity|].
    symmetry. apply andb_false_iff. right. apply Nat.leb_gt. lia.
  - rewrite E. reflexivity.
Qed.

Lemma lower_idem (s : string) : lower (lower s) = lower s.
Proof. induction s as [|c s IH]; simpl; [done|]. by rewrite lower_ascii_idem, IH. Qed.

Lemma strip_dot_cons (c : ascii) (s : string) :
  strip_dot (String c s) = if Ascii.eqb c "." then s else String c s.
Proof. destruct c as [[] [] [] [] [] [] [] []]; reflexivity. Qed.

Lemma lower_ascii_dot (c : ascii) : Ascii.eqb (lower_ascii c) "." = Ascii.eqb c ".".
Proof.
  destruct (Ascii.eqb c ".") eqn:E.
  - apply Ascii.eqb_eq in E. subst. reflexivity.
  - apply Ascii.eqb_neq. intros H. unfold lower_ascii in H.
    destruct ((65 <=? Ascii.nat_of_ascii c)%nat && (Ascii.nat_of_ascii c <=? 90)%nat) eqn:E2.
    + apply andb_true_iff in E2 as [E3 E4]. apply Nat.leb_le in E3, E4.
      apply (f_equal Ascii.nat_of_ascii) in H.
      rewrite Ascii.nat_ascii_embedding in H by lia.
      change (Ascii.nat_of_ascii ".") with 46%nat in H. lia.
    + subst. rewrite Ascii.eqb_refl in E. discriminate.
Qed.

Lemma strip_dot_lower (s : string) : strip_dot (lower s) = lower (strip_dot s).
Proof.
  destruct s as [|c s]; [done|].
  change (lower (String c s)) with (String (lower_ascii c) (lower s)).
  rewrite !strip_dot_cons, lower_ascii_dot.
  destruct (Ascii.eqb c "."); reflexivity.
Qed.

Lemma norm_ext_lower (s : string) : norm_ext (lower s) = norm_ext s.
Proof. unfold norm_ext. rewrite strip_dot_lower, lower_idem. reflexivity. Qed.

End ExtFacts.

Import ExtFilter ExtFacts.

(** C8: with an empty allow-set every extension passes; otherwise an
    extension passes exactly when, lower-cased and without its leading
    dot, it is in the allow-set normalised the same way; changing the case
    of the extension never changes the outcome. *)
Theorem ext_filter_membership (allow : list string) (ext : string) :
  (ext_pass allow ext = true <->
     allow = [] \/ In (norm_ext ext) (map norm_ext allow)) /\
  ext_pass allow (lower ext) = ext_pass allow ext.
Proof.
  split.
  - unfold ext_pass. destruct allow as [|a allow'].
    + split; [left; done|done].
    + rewrite existsb_exists. split.
      * intros [x [Hx Heq]]. right. apply String.eqb_eq in Heq.
        rewrite <- Heq. apply in_map. exact Hx.
      * intros [H|H]; [discriminate|].
        apply in_map_iff in H as [x [Heq Hx]].
        exists x. split; [exact Hx|]. apply String.eqb_eq. exact Heq.
  - unfold ext_pass. destruct allow; [reflexivity|].
    rewrite norm_ext_lower. reflexivity.
Qed.

Import Template.

(** C4: expanding a template made of literal characters and [{name}]
    tokens replaces each token by the placeholder's value and copies the
    literals; the eight names [task_id], [message_id], [chat_title],
    [timestamp], [file_name], [year], [month], [day] give the task's
    identity values and any other name gives the empty string. *)
Theorem template_expansion (v : identity) (ts : list token) :
  forallb token_ok ts = true ->
  expand v (render ts) = foldr (fun t acc => subst_token v t +:+ acc) EmptyString ts /\
  placeholder_value v "task_id" = id_task_id v /\
  placeholder_value v "message_id" = id_message_id v /\
  placeholder_value v "chat_title" = id_chat_title v /\
  placeholder_value v "timestamp" = id_timestamp v /\
  placeholder_value v "file_name" = id_file_name v /\
  placeholder_value v "year" = id_year v /\
  placeholder_value v "month" = id_month v /\
  placeholder_value v "day" = id_day v /\
  (forall name, ~ In name ["task_id"; "message_id"; "chat_title"; "timestamp";
                           "file_name"; "year"; "month"; "day"]%string ->
     placeholder_value v name = EmptyString).
Proof.
  intros Hok. split; [|repeat split; try reflexivity].
  - unfold expand. induction ts as [|t ts IH]; [reflexivity|].
    simpl in Hok. apply andb_true_iff in Hok as [Ht Hts].
    specialize (IH Hts). unfold render in *. simpl foldr.
    destruct t as [c|name]; simpl in Ht.
    + change (render_token (Lit c)) with (String c EmptyString).
      rewrite Str.app_cons, Str.app_nil_l.
      apply negb_true_iff in Ht. cbn [expand_go]. rewrite Ht, IH. reflexivity.
    + apply negb_true_iff in Ht.
      change (render_token (Ph name)) with ("{" +:+ name +:+ "}")%string.
      rewrite string_app_assoc, Str.app_cons, Str.app_nil_l, string_app_assoc.
      rewrite Str.app_cons, Str.app_nil_l. cbn [expand_go Ascii.eqb].
      rewrite expand_go_name by exact Ht. rewrite Str.app_nil_l, IH. reflexivity.
  - intros name Hn. unfold placeholder_value.
    repeat match goal with
    | |- context [String.eqb name ?x] =>
        destruct (String.eqb_spec name x) as [->|_];
        [exfalso; apply Hn; simpl; tauto|]
    end.
    reflexivity.
Qed.

Lemma template_expansion_witness :
  expand sample (render [Ph "task_id"; Lit "_"; Ph "year"; Lit "_"; Ph "x"]%string)
    = "7_2026_"%string.
Proof.
  rewrite (proj1 (template_expansion sample
             [Ph "task_id"; Lit "_"; Ph "year"; Lit "_"; Ph "x"]%string eq_refl)).
  reflexivity.
Defined.

Module SchedFacts.
Import Scheduler.

Lemma insert_prio_split (ts : gmap N task) (id : N) (q : list N) :
  exists pre post, insert_prio ts id q = pre ++ id :: post
                   /\ Forall (fun y => is_prio ts y = true) pre.
Proof.
  induction q as [|x q IH]; simpl.
  - exists [], []. split; [reflexivity|constructor].
  - destruct (is_prio ts x) eqn:E.
    + destruct IH as [pre [post [Hq Hf]]].
      exists (x :: pre), post. rewrite Hq. split; [reflexivity|].
      constructor; assumption.
    + exists [], (x :: q). split; [reflexivity|constructor].
Qed.

Lemma status_eqb_eq (a b : status) : status_eqb a b = true <-> a = b.
Proof. destruct a, b; simpl; split; congruence. Qed.

End SchedFacts.

Import Scheduler SchedFacts.

(** C6: [resume] succeeds exactly on a paused task; the task becomes
    [queued] and re-enters the queue, ahead of every non-priority queued
    task when its priority flag is set and at the back otherwise; on a
    completed or failed task, pause, resume and set-priority are all
    rejected with IllegalStateError and leave the state unchanged. *)
Theorem resume_contract (s : sched) (id : N) (t : task) :
  tasks s !! id = Some t ->
  (snd (exec s (Resume id)) = ROk <-> t_status t = Paused) /\
  (t_status t = Paused ->
     tasks (fst (exec s (Resume id))) !! id = Some (with_status Queued t) /\
     (t_priority t = true ->
        exists pre post, queue (fst (exec s (Resume id))) = pre ++ id :: post /\
          Forall (fun y => is_prio (tasks (fst (exec s (Resume id)))) y = true) pre) /\
     (t_priority t = false ->
        queue (fst (exec s (Resume id))) = remove_id id (queue s) ++ [id])) /\
  (t_status t = Completed \/ t_status t = Failed ->
     exec s (Pause id) = (s, RErr IllegalStateError) /\
     exec s (Resume id) = (s, RErr IllegalStateError) /\
     exec s (SetPriority id) = (s, RErr IllegalStateError)).
Proof.
  intros Ht. split; [|split].
  - simpl. rewrite Ht. destruct (t_status t); simpl; split; congruence.
  - intros Hp. simpl. rewrite Ht, Hp. simpl.
    assert (Hprio : is_prio (<[id:=with_status Queued t]> (tasks s)) id = t_priority t).
    { unfold is_prio. rewrite lookup_insert_eq. reflexivity. }
    split; [apply lookup_insert_eq|]. split.
    + intros Hpr. unfold requeue. rewrite Hprio, Hpr. apply insert_prio_split.
    + intros Hpr. unfold requeue. rewrite Hprio, Hpr. reflexivity.
  - intros [Hs|Hs]; simpl; rewrite Ht, Hs; repeat split.
Qed.

Lemma resume_contract_witness :
  snd (exec (run s0 [Enqueue 1 true; Promote; Pause 1]) (Resume 1)) = ROk /\
  tasks (fst (exec (run s0 [Enqueue 1 true; Promote; Pause 1]) (Resume 1))) !! 1
    = Some (with_status Queued
              {| t_status := Paused; t_priority := true; t_error := None |}).
Proof.
  assert (H : tasks (run s0 [Enqueue 1 true; Promote; Pause 1]) !! 1
              = Some {| t_status := Paused; t_priority := true; t_error := None |})
    by (vm_compute; reflexivity).
  destruct (resume_contract _ 1 _ H) as [Hok [Hp _]].
  split.
  - apply Hok. reflexivity.
  - apply (proj1 (Hp eq_refl)).
Defined.

Lemma failed_task_untouched (s : sched) (id : N) (t : task) (o : op) :
  tasks s !! id = Some t -> t_status t = Failed ->
  (forall f, o <> Delete id f) ->
  tasks (fst (exec s o)) !! id = Some t.
Proof.
  intros Ht Hf Hnd.
  destruct o as [i p|i|i|i|i f|i e|i| |]; simpl.
  - destruct (tasks s !! i) eqn:Ei; simpl; [exact Ht|].
    rewrite lookup_insert_ne; [exact Ht|]. congruence.
  - destruct (tasks s !! i) as [ti|] eqn:Ei; simpl; [|exact Ht].
    destruct (decide (i = id)) as [->|Hne].
    + rewrite Ht in Ei. injection Ei as <-. rewrite Hf. exact Ht.
    + destruct (t_status ti); simpl; try exact Ht;
        rewrite lookup_insert_ne by exact Hne; exact Ht.
  - destruct (tasks s !! i) as [ti|] eqn:Ei; simpl; [|exact Ht].
    destruct (decide (i = id)) as [->|Hne].
    + rewrite Ht in Ei. injection Ei as <-. rewrite Hf. exact Ht.
    + destruct (t_status ti); simpl; try exact Ht;
        rewrite lookup_insert_ne by exact Hne; exact Ht.
  - destruct (tasks s !! i) as [ti|] eqn:Ei; simpl; [|exact Ht].
    destruct (decide (i = id)) as [->|Hne].
    + rewrite Ht in Ei. injection Ei as <-. rewrite Hf. exact Ht.
    + destruct (t_status ti); simpl; try exact Ht;
        rewrite lookup_insert_ne by exact Hne; exact Ht.
  - destruct (tasks s !! i) as [ti|] eqn:Ei; simpl; [|exact Ht].
    destruct (decide (i = id)) as [->|Hne]; [exfalso; exact (Hnd f eq_refl)|].
    rewrite lookup_delete_ne by exact Hne. exact Ht.
  - destruct (tasks s !! i) as [ti|] eqn:Ei; simpl; [|exact Ht].
    destruct (decide (i = id)) as [->|Hne].
    + rewrite Ht in Ei. injection Ei as <-. rewrite Hf. exact Ht.
    + destruct (t_status ti); simpl; try exact Ht;
        rewrite lookup_insert_ne by exact Hne; exact Ht.
  - destruct (tasks s !! i) as [ti|] eqn:Ei; simpl; [|exact Ht].
    destruct (decide (i = id)) as [->|Hne].
    + rewrite Ht in Ei. injection Ei as <-. rewrite Hf. exact Ht.
    + destruct (t_status ti); simpl; try exact Ht;
        rewrite lookup_insert_ne by exact Hne; exact Ht.
  - destruct (downloading_count (tasks s) <? limit s)%nat; [|exact Ht].
    destruct (queue s) as [|x q]; [exact Ht|].
    destruct (tasks s !! x) as [tx|] eqn:Ex; simpl; [|exact Ht].
    destruct (status_eqb (t_status tx) Queued) eqn:Eq; simpl; [|exact Ht].
    destruct (decide (x = id)) as [->|Hne].
    + rewrite Ht in Ex. injection Ex as <-. rewrite Hf in Eq. discriminate.
    + rewrite lookup_insert_ne by exact Hne. exact Ht.
  - exact Ht.
Qed.

(** C7: a transfer error on a downloading task makes it [failed] with the
    error detail recorded; from then on no operation other than deleting
    it changes or removes the record (in particular promotion never picks
    it up again: no retry); every query returns it with its detail, and
    the dashboard lists every [failed] record in its "downloading" tab. *)
Theorem failure_recorded_and_kept :
  (forall s id t e, tasks s !! id = Some t -> t_status t = Downloading ->
     tasks (fst (exec s (TransferError id e))) !! id
       = Some {| t_status := Failed; t_priority := t_priority t; t_error := Some e |}) /\
  (forall s id t (os : list op), tasks s !! id = Some t -> t_status t = Failed ->
     Forall (fun o => forall f, o <> Delete id f) os ->
     tasks (run s os) !! id = Some t) /\
  (forall s id t, tasks s !! id = Some t ->
     exec s Query = (s, RRows (map_to_list (tasks s))) /\
     In (id, t) (map_to_list (tasks s))) /\
  (forall (r : DownloadRecord) (ds : list DownloadRecord),
     In r ds -> Dashboard.status r = status_string Failed -> In r (tab_rows true ds)).
Proof.
  split; [|split; [|split]].
  - intros s id t e Ht Hd. simpl. rewrite Ht, Hd. simpl. apply lookup_insert_eq.
  - intros s id t os. revert s. induction os as [|o os IH]; intros s Ht Hf Hos; simpl.
    + exact Ht.
    + inversion Hos as [|? ? Ho Hos']; subst.
      apply IH; [|exact Hf|exact Hos'].
      apply failed_task_untouched; assumption.
  - intros s id t Ht. split; [reflexivity|].
    apply list_elem_of_In. apply elem_of_map_to_list. exact Ht.
  - intros r ds Hin Hs. unfold tab_rows. apply filter_In. split; [exact Hin|].
    rewrite Hs. reflexivity.
Qed.

Lemma failure_recorded_and_kept_witness :
  tasks (run (fst (exec (run s0 [Enqueue 3 false; Promote]) (TransferError 3 "timeout")))
             [Promote; Enqueue 3 false; Resume 3; Query]) !! 3
    = Some {| t_status := Failed; t_priority := false; t_error := Some "timeout"%string |}.
Proof.
  assert (H0 : tasks (run s0 [Enqueue 3 false; Promote]) !! 3
               = Some {| t_status := Downloading; t_priority := false; t_error := None |})
    by (vm_compute; reflexivity).
  pose proof (proj1 failure_recorded_and_kept _ 3 _ "timeout"%string H0 eq_refl) as H1.
  apply (proj1 (proj2 failure_recorded_and_kept) _ 3 _ _ H1 eq_refl).
  repeat constructor; discriminate.
Defined.

(** C9: the dashboard polls every 2000 ms with two read requests
    ([GET /downloads], [GET /logs?limit=50]); a status query leaves the
    scheduler state as it is, so any run of scheduler operations
    interleaved with queries ends in the state reached without them. *)
Theorem polling_does_not_reorder :
  poll_interval_ms = 2000 /\
  Forall (fun r => meth r = GET) poll_tick /\
  (forall s, exec s Query = (s, RRows (map_to_list (tasks s)))) /\
  (forall s os, run s os = run s (List.filter (fun o => negb (is_query o)) os)).
Proof.
  split; [reflexivity|split; [repeat constructor|split; [reflexivity|]]].
  intros s os. revert s. induction os as [|o os IH]; intros s; [reflexivity|].
  destruct o; simpl; apply IH.
Qed.

(* ===================================================================== *)
(** * Properties of the rest of the dashboard *)
(* ===================================================================== *)

Module JoinSplit.
Import Str Paths.

Lemma split_on_nonempty (c : ascii) (s : string) : split_on c s <> [].
Proof.
  destruct s as [|x s]; simpl; [discriminate|].
  destruct (Ascii.eqb x c); [discriminate|].
  destruct (split_on c s); discriminate.
Qed.

Lemma split_on_pieces (c : ascii) (s : string) :
  Forall (fun x => has_char c x = false) (split_on c s).
Proof.
  induction s as [|x s IH]; simpl; [repeat constructor|].
  destruct (Ascii.eqb x c) eqn:E; [constructor; [done|exact IH]|].
  destruct (split_on c s) as [|p ps]; [repeat constructor; simpl; rewrite E; done|].
  inversion IH as [|? ? Hp Hps]; subst.
  constructor; [simpl; rewrite E, Hp; done|exact Hps].
Qed.

Lemma join_cons_char (c : ascii) (x : ascii) (p : string) (ps : list string) :
  join (String c EmptyString) (String x p :: ps)
  = String x (join (String c EmptyString) (p :: ps)).
Proof. destruct ps; reflexivity. Qed.

Lemma join_cons2 (c : ascii) (x y : string) (ys : list string) :
  join (String c EmptyString) (x :: y :: ys)
  = x +:+ String c (join (String c EmptyString) (y :: ys)).
Proof. reflexivity. Qed.

(** [s.split(c).join(c) === s] *)
Lemma join_split (c : ascii) (s : string) :
  join (String c EmptyString) (split_on c s) = s.
Proof.
  induction s as [|x s IH]; [reflexivity|]. simpl.
  destruct (Ascii.eqb x c) eqn:E.
  - apply Ascii.eqb_eq in E. subst.
    destruct (split_on c s) as [|p ps] eqn:Es; [by apply split_on_nonempty in Es|].
    rewrite join_cons2, IH. reflexivity.
  - destruct (split_on c s) as [|p ps] eqn:Es; [by apply split_on_nonempty in Es|].
    rewrite join_cons_char, IH. reflexivity.
Qed.

(** [xs.join(c).split(c)] gives [xs] back when no entry holds [c]. *)
Lemma split_join (c : ascii) (xs : list string) :
  xs <> [] -> Forall (fun x => has_char c x = false) xs ->
  split_on c (join (String c EmptyString) xs) = xs.
Proof.
  induction xs as [|x xs IH]; [done|]. intros _ Hf.
  inversion Hf as [|? ? Hx Hxs]; subst.
  destruct xs as [|y ys].
  - simpl. apply split_on_no_sep. exact Hx.
  - rewrite join_cons2, split_on_app_sep by exact Hx.
    rewrite IH by (discriminate || exact Hxs). reflexivity.
Qed.

Lemma split_on_app (c : ascii) (a b : string) :
  split_on c (a +:+ String c b) = split_on c a ++ split_on c b.
Proof.
  induction a as [|x a IH].
  - simpl. rewrite Ascii.eqb_refl. reflexivity.
  - rewrite app_cons. simpl. rewrite IH.
    destruct (Ascii.eqb x c); [reflexivity|].
    destruct (split_on c a) as [|p ps] eqn:Es; [by apply split_on_nonempty in Es|].
    reflexivity.
Qed.

Lemma join_app_last (c : ascii) (init : list string) (l : string) :
  init <> [] ->
  join (String c EmptyString) (init ++ [l])
  = join (String c EmptyString) init +:+ String c l.
Proof.
  induction init as [|x init IH]; [done|]. intros _.
  destruct init as [|y ys].
  - simpl. rewrite app_cons, app_nil_l. reflexivity.
  - change ((x :: y :: ys) ++ [l]) with (x :: y :: (ys ++ [l])).
    rewrite join_cons2. change (y :: ys ++ [l]) with ((y :: ys) ++ [l]).
    rewrite IH by discriminate. rewrite join_cons2.
    rewrite string_app_assoc, app_cons. reflexivity.
Qed.

End JoinSplit.

Import Paths JoinSplit.

Lemma or_default_empty (x : string) : RuleForm.or_default x "" = x.
Proof. unfold RuleForm.or_default. destruct (String.eqb_spec x ""); congruence. Qed.

(** Entering sub-directory [base/name] of the browser and pressing
    "← 返回" leads back to [base]; the rename prompt proposes [name]; and
    editing a rule saved in [base/name] opens the browser at [base]. *)
Theorem browse_back_returns_to_base (base name : string) :
  Str.has_char "/" name = false ->
  parentPath (base +:+ String "/" name) = base /\
  lastSegment (base +:+ String "/" name) = name /\
  editBrowsePath (Some (base +:+ String "/" name)) = base.
Proof.
  intros Hn.
  assert (Hs : Str.split_on "/" (base +:+ String "/" name)
               = Str.split_on "/" base ++ [name]).
  { rewrite split_on_app, (Str.split_on_no_sep _ name Hn). reflexivity. }
  assert (Hp : parentPath (base +:+ String "/" name) = base).
  { unfold parentPath. rewrite Hs, removelast_last. apply join_split. }
  split; [exact Hp|split].
  - unfold lastSegment. rewrite Hs, last_snoc. apply or_default_empty.
  - simpl. destruct (String.eqb_spec (base +:+ String "/" name) "") as [E|_].
    + destruct base; discriminate.
    + exact Hp.
Qed.

Lemma browse_back_returns_to_base_witness :
  parentPath "media/tv" = "media" /\ lastSegment "media/tv" = "tv".
Proof.
  destruct (browse_back_returns_to_base "media" "tv" eq_refl) as [H1 [H2 _]].
  split; [exact H1|exact H2].
Defined.

(** Every path splits at its last ["/"] into the parent the browser goes
    back to and the name the rename prompt proposes; a path without ["/"]
    has the root [""] as parent and is its own name. *)
Theorem parent_and_name_split (path : string) :
  (Str.has_char "/" path = true ->
     parentPath path +:+ String "/" (lastSegment path) = path) /\
  (Str.has_char "/" path = false ->
     parentPath path = "" /\ lastSegment path = path).
Proof.
  split.
  - intros Hs. unfold parentPath, lastSegment.
    pose proof (join_split "/" path) as Hj.
    pose proof (split_on_pieces "/" path) as Hpc.
    destruct (exists_last (split_on_nonempty "/" path)) as [init [l E]].
    rewrite E in Hj, Hpc |- *. rewrite removelast_last, last_snoc, or_default_empty.
    destruct init as [|x xs].
    + simpl in Hj. inversion Hpc as [|? ? Hl _]; subst. rewrite Hl in Hs. discriminate.
    + rewrite <- join_app_last by discriminate. exact Hj.
  - intros Hs. unfold parentPath, lastSegment.
    rewrite (Str.split_on_no_sep _ _ Hs). simpl. split; [reflexivity|].
    apply or_default_empty.
Qed.

Lemma parent_and_name_split_witness :
  parentPath "a/b/c" +:+ String "/" (lastSegment "a/b/c") = "a/b/c" /\
  parentPath "a" = "".
Proof.
  split.
  - apply (proj1 (parent_and_name_split "a/b/c")). reflexivity.
  - apply (proj2 (parent_and_name_split "a")). reflexivity.
Defined.

Module ExtButtonFacts.
Import Str Paths JoinSplit ExtButtons.

Definition entry_ok (x : string) : Prop := has_char "," x = false /\ blank x = false.
Definition entry_ok2 (x : string) : Prop := has_char "," x = false /\ x <> "".

Lemma filter_all_true {A} (f : A -> bool) (l : list A) :
  Forall (fun x => f x = true) l -> List.filter f l = l.
Proof. induction 1 as [|x l Hx _ IH]; simpl; [done|]. rewrite Hx, IH. done. Qed.

Lemma exts_ok (s : string) : Forall entry_ok (exts s).
Proof.
  apply List.Forall_forall. intros x Hx. unfold exts in Hx.
  apply filter_In in Hx as [Hin Hb]. split.
  - exact (proj1 (List.Forall_forall _ _) (split_on_pieces "," s) x Hin).
  - destruct (blank x); [discriminate|done].
Qed.

Lemma exts_join (xs : list string) :
  xs <> [] -> Forall entry_ok xs -> exts (join "," xs) = xs.
Proof.
  intros Hne Hok. unfold exts. rewrite split_join; [|done|].
  - apply filter_all_true. eapply Forall_impl; [exact Hok|].
    intros x [_ Hb]. rewrite Hb. done.
  - eapply Forall_impl; [exact Hok|]. intros x [Hc _]. exact Hc.
Qed.

Lemma exts2_ok (s : string) : Forall entry_ok2 (exts2 s).
Proof.
  apply List.Forall_forall. intros x Hx. unfold exts2 in Hx.
  apply filter_In in Hx as [Hin Hb]. split.
  - exact (proj1 (List.Forall_forall _ _) (split_on_pieces "," s) x Hin).
  - intros ->. discriminate.
Qed.

Lemma exts2_join (xs : list string) : Forall entry_ok2 xs -> exts2 (join "," xs) = xs.
Proof.
  intros Hok. destruct xs as [|x xs']; [reflexivity|].
  unfold exts2. rewrite split_join; [|done|].
  - apply filter_all_true. eapply Forall_impl; [exact Hok|].
    intros y [_ Hy]. destruct (String.eqb_spec y ""); done.
  - eapply Forall_impl; [exact Hok|]. intros y [Hc _]. exact Hc.
Qed.

Lemma quick_add_entries (guard added : list string) (s : string) :
  added <> [] -> Forall entry_ok added ->
  exts (quick_add guard added s) =
  if existsb (fun g => existsb (String.eqb g) (exts s)) guard then exts s
  else exts s ++ added.
Proof.
  intros Hne Hok. unfold quick_add.
  destruct (existsb _ guard); [reflexivity|].
  apply exts_join.
  - destruct (exts s); [exact Hne|discriminate].
  - apply Forall_app. split; [apply exts_ok|exact Hok].
Qed.

Lemma quick_add_twice (guard added : list string) (s : string) :
  added <> [] -> Forall entry_ok added ->
  (exists x, In x guard /\ In x added) ->
  quick_add guard added (quick_add guard added s) = quick_add guard added s.
Proof.
  intros Hne Hok [x [Hg Ha]].
  unfold quick_add at 2 3.
  destruct (existsb (fun g => existsb (String.eqb g) (exts s)) guard) eqn:E.
  - unfold quick_add. rewrite E. reflexivity.
  - unfold quick_add at 1.
    assert (Hx : exts (join "," (exts s ++ added)) = exts s ++ added).
    { apply exts_join.
      - destruct (exts s); [exact Hne|discriminate].
      - apply Forall_app. split; [apply exts_ok|exact Hok]. }
    rewrite Hx.
    replace (existsb _ guard) with true; [reflexivity|].
    symmetry. apply existsb_exists. exists x. split; [exact Hg|].
    apply existsb_exists. exists x. split.
    + apply in_or_app. right. exact Ha.
    + apply String.eqb_refl.
Qed.

Lemma prefix_app (p a b : string) :
  String.prefix p a = true -> String.prefix p (a +:+ b) = true.
Proof.
  revert a. induction p as [|c p IH]; intros a H; [destruct (a +:+ b); reflexivity|].
  destruct a as [|c' a]; [discriminate|].
  change (String c' a +:+ b) with (String c' (a +:+ b)).
  simpl in *. destruct (Ascii.ascii_dec c c'); [apply IH; exact H|discriminate].
Qed.

Lemma includes_app_l (p a b : string) :
  includes p a = true -> includes p (a +:+ b) = true.
Proof.
  induction a as [|c a IH]; intros H.
  - simpl in H. rewrite orb_false_r in H. destruct p; [|discriminate].
    destruct b; reflexivity.
  - change (String c a +:+ b) with (String c (a +:+ b)).
    change (includes p (String c (a +:+ b)))
      with (String.prefix p (String c (a +:+ b)) || includes p (a +:+ b)).
    change (includes p (String c a)) with (String.prefix p (String c a) || includes p a) in H.
    apply orb_true_iff in H as [H|H].
    + pose proof (prefix_app p (String c a) b H) as H'.
      change (String c a +:+ b) with (String c (a +:+ b)) in H'.
      rewrite H'. reflexivity.
    + rewrite (IH H). apply orb_true_r.
Qed.

Lemma includes_app_r (p a b : string) :
  includes p b = true -> includes p (a +:+ b) = true.
Proof.
  induction a as [|c a IH]; intros H; [exact H|].
  change (String c a +:+ b) with (String c (a +:+ b)).
  change (includes p (String c (a +:+ b)))
    with (String.prefix p (String c (a +:+ b)) || includes p (a +:+ b)).
  rewrite (IH H). apply orb_true_r.
Qed.

Lemma includes_join (p e : string) (xs : list string) :
  In e xs -> includes p e = true -> includes p (join "," xs) = true.
Proof.
  induction xs as [|x xs IH]; intros Hin Hp; [destruct Hin|].
  destruct Hin as [->|Hin].
  - destruct xs as [|y ys]; [exact Hp|].
    change (join "," (e :: y :: ys)) with (e +:+ "," +:+ join "," (y :: ys)).
    apply includes_app_l. exact Hp.
  - destruct xs as [|y ys]; [destruct Hin|].
    change (join "," (x :: y :: ys)) with (x +:+ "," +:+ join "," (y :: ys)).
    apply includes_app_r. change ("," +:+ join "," (y :: ys))
      with (String "," (join "," (y :: ys))).
    change (includes p (String "," (join "," (y :: ys))))
      with (String.prefix p (String "," (join "," (y :: ys))) ||
            includes p (join "," (y :: ys))).
    rewrite (IH Hin Hp). apply orb_true_r.
Qed.

End ExtButtonFacts.

Import ExtButtonFacts.

(** The "+ MP4" and "+ JPG" buttons of the rule form (Dashboard.tsx):
    afterwards "mp4" (resp. "jpg" and "jpeg") is an entry of the
    extension field, appended after the non-blank entries already there
    unless the guard found one; pressing the button a second time leaves
    the field unchanged. *)
Theorem quick_add_buttons (s : string) :
  ExtButtons.exts (ExtButtons.add_mp4 s) =
    (if existsb (String.eqb "mp4") (ExtButtons.exts s) then ExtButtons.exts s
     else ExtButtons.exts s ++ ["mp4"]) /\
  ExtButtons.add_mp4 (ExtButtons.add_mp4 s) = ExtButtons.add_mp4 s /\
  ExtButtons.exts (ExtButtons.add_jpg s) =
    (if existsb (String.eqb "jpg") (ExtButtons.exts s)
        || existsb (String.eqb "jpeg") (ExtButtons.exts s)
     then ExtButtons.exts s else ExtButtons.exts s ++ ["jpg"; "jpeg"]) /\
  ExtButtons.add_jpg (ExtButtons.add_jpg s) = ExtButtons.add_jpg s.
Proof.
  assert (Hm : Forall entry_ok ["mp4"]) by (repeat constructor).
  assert (Hj : Forall entry_ok ["jpg"; "jpeg"]) by (repeat constructor).
  split; [|split; [|split]].
  - unfold ExtButtons.add_mp4. rewrite quick_add_entries by done. simpl.
    rewrite orb_false_r. reflexivity.
  - apply quick_add_twice; [done|exact Hm|]. exists "mp4"%string. simpl; tauto.
  - unfold ExtButtons.add_jpg. rewrite quick_add_entries by done. simpl.
    rewrite orb_false_r. reflexivity.
  - apply quick_add_twice; [done|exact Hj|]. exists "jpg"%string. simpl; tauto.
Qed.

(** The file type checkboxes of the second rule form: checking appends the
    type's entries after the non-empty entries, and unchecking right after
    gives the same field as unchecking at once, when every appended entry is
    among the dropped ones (as for every box of the form). *)
Theorem checkbox_check_then_uncheck (added dropped : list string) (s : string) :
  Forall entry_ok2 added ->
  (forall x, In x added -> In x dropped) ->
  ExtButtons.exts2 (ExtButtons.check added s) = ExtButtons.exts2 s ++ added /\
  ExtButtons.uncheck dropped (ExtButtons.check added s) = ExtButtons.uncheck dropped s.
Proof.
  intros Hok Hsub.
  assert (He : ExtButtons.exts2 (ExtButtons.check added s) = ExtButtons.exts2 s ++ added).
  { apply exts2_join. apply Forall_app. split; [apply exts2_ok|exact Hok]. }
  split; [exact He|].
  unfold ExtButtons.uncheck at 1. rewrite He, List.filter_app.
  replace (List.filter _ added) with (@nil string); [rewrite List.app_nil_r; reflexivity|].
  symmetry. clear He. induction added as [|a added IH]; [reflexivity|]. simpl.
  assert (Ha : existsb (String.eqb a) dropped = true).
  { apply existsb_exists. exists a. split; [apply Hsub; left; done|apply String.eqb_refl]. }
  rewrite Ha. simpl. apply IH.
  - inversion Hok; done.
  - intros x Hx. apply Hsub. right. exact Hx.
Qed.

Lemma checkbox_check_then_uncheck_witness :
  ExtButtons.uncheck ["jpg"; "jpeg"] (ExtButtons.check ["jpg"; "jpeg"] "mp4,,jpeg")
  = ExtButtons.uncheck ["jpg"; "jpeg"] "mp4,,jpeg".
Proof.
  apply (proj2 (checkbox_check_then_uncheck ["jpg"; "jpeg"] ["jpg"; "jpeg"] "mp4,,jpeg"
    ltac:(repeat constructor; discriminate) ltac:(intros x Hx; exact Hx))).
Defined.

(** The boxes are shown checked by a substring test
    ([formExtensions.includes(name)]).  When an entry of the field that the
    box does not drop contains the box's name (["mp4a"] for MP4, ["jpgx"]
    for JPG), the box is shown checked; the first click removes the box's
    own entries and the empty entries, every further click leaves the field
    as it is, and the box is still shown checked: it cannot be cleared. *)
Theorem checkbox_stuck_on_substring (name : string) (dropped : list string)
    (s e : string) :
  In e (ExtButtons.exts2 s) -> ~ In e dropped -> ExtButtons.includes name e = true ->
  ExtButtons.includes name s = true /\
  (forall k : nat, Nat.iter (S k) (ExtButtons.checkbox_change name dropped) s
                   = ExtButtons.uncheck dropped s) /\
  ExtButtons.includes name (ExtButtons.uncheck dropped s) = true.
Proof.
  intros He Hd Hn.
  set (keep := fun x => negb (existsb (String.eqb x) dropped)).
  assert (Hk : keep e = true).
  { unfold keep. destruct (existsb (String.eqb e) dropped) eqn:E; [|reflexivity].
    apply existsb_exists in E as [y [Hy Ey]]. apply String.eqb_eq in Ey. subst y.
    contradiction. }
  assert (Hs : ExtButtons.includes name s = true).
  { unfold ExtButtons.exts2 in He. apply filter_In in He as [He _].
    rewrite <- (JoinSplit.join_split "," s). apply includes_join with e; assumption. }
  assert (Hu : ExtButtons.includes name (ExtButtons.uncheck dropped s) = true).
  { unfold ExtButtons.uncheck. apply includes_join with e; [|exact Hn].
    apply filter_In. split; assumption. }
  assert (Hfix : ExtButtons.uncheck dropped (ExtButtons.uncheck dropped s)
                 = ExtButtons.uncheck dropped s).
  { unfold ExtButtons.uncheck at 1. fold keep.
    unfold ExtButtons.uncheck. fold keep.
    rewrite exts2_join.
    - rewrite filter_all_true; [reflexivity|].
      apply List.Forall_forall. intros x Hx. apply filter_In in Hx. apply Hx.
    - apply List.Forall_forall. intros x Hx. apply filter_In in Hx as [Hx _].
      exact (proj1 (List.Forall_forall _ _) (exts2_ok s) x Hx). }
  split; [exact Hs|split; [|exact Hu]].
  induction k as [|k IH].
  - simpl. unfold ExtButtons.checkbox_change. rewrite Hs. reflexivity.
  - change (Nat.iter (S (S k)) (ExtButtons.checkbox_change name dropped) s)
      with (ExtButtons.checkbox_change name dropped
              (Nat.iter (S k) (ExtButtons.checkbox_change name dropped) s)).
    rewrite IH. unfold ExtButtons.checkbox_change at 1. rewrite Hu. exact Hfix.
Qed.

Lemma checkbox_stuck_on_substring_witness :
  ExtButtons.includes "jpg" "jpgx,jpeg" = true /\
  (forall k : nat, Nat.iter (S k) (ExtButtons.checkbox_change "jpg" ["jpg"; "jpeg"]) "jpgx,jpeg"
                   = ExtButtons.uncheck ["jpg"; "jpeg"] "jpgx,jpeg") /\
  ExtButtons.includes "jpg" (ExtButtons.uncheck ["jpg"; "jpeg"] "jpgx,jpeg") = true.
Proof.
  apply (checkbox_stuck_on_substring "jpg" ["jpg"; "jpeg"] "jpgx,jpeg" "jpgx").
  - vm_compute. left. reflexivity.
  - simpl. intros [H|[H|H]]; [discriminate|discriminate|exact H].
  - reflexivity.
Defined.

(** The two tabs of the task table split the records: each record is shown
    in exactly one of them, and their row counts add up to the number of
    records. *)
Theorem tabs_partition_records (ds : list Dashboard.DownloadRecord) :
  (length (Dashboard.tab_rows true ds) + length (Dashboard.tab_rows false ds)
    = length ds)%nat /\
  (forall r, In r ds ->
     (In r (Dashboard.tab_rows true ds) <-> ~ In r (Dashboard.tab_rows false ds))).
Proof.
  split.
  - unfold Dashboard.tab_rows. induction ds as [|d ds IH]; [reflexivity|]. simpl.
    destruct (String.eqb (Dashboard.status d) "completed"); simpl; lia.
  - intros r Hr. unfold Dashboard.tab_rows. rewrite !filter_In.
    destruct (String.eqb (Dashboard.status r) "completed"); simpl; intuition congruence.
Qed.

Definition sample_record (st : string) : Dashboard.DownloadRecord :=
  {| Dashboard.rec_id := 1; Dashboard.file_name := "a.mp4";
     Dashboard.status := st; Dashboard.progress := 0; Dashboard.error := None |}.

Lemma tabs_partition_records_witness :
  In (sample_record "paused") (Dashboard.tab_rows true [sample_record "paused"; sample_record "completed"])
  <-> ~ In (sample_record "paused") (Dashboard.tab_rows false [sample_record "paused"; sample_record "completed"]).
Proof.
  apply (proj2 (tabs_partition_records [sample_record "paused"; sample_record "completed"])).
  left. reflexivity.
Defined.

(** Every row offers "删除"; no row offers both "暂停" and "恢复"; and
    every row of the completed tab offers "删除" alone. *)
Theorem row_buttons (ds : list Dashboard.DownloadRecord) (r : Dashboard.DownloadRecord) :
  In Dashboard.ADelete (Dashboard.row_actions r) /\
  ~ (In Dashboard.APause (Dashboard.row_actions r) /\
     In Dashboard.AResume (Dashboard.row_actions r)) /\
  (In r (Dashboard.tab_rows false ds) -> Dashboard.row_actions r = [Dashboard.ADelete]).
Proof.
  unfold Dashboard.row_actions.
  split; [|split].
  - apply in_or_app. right. apply in_or_app. right. apply in_or_app. right. left. reflexivity.
  - destruct (String.eqb_spec (Dashboard.status r) "downloading") as [E|E];
      [rewrite E; simpl; intros [_ H]; intuition discriminate|].
    destruct (String.eqb (Dashboard.status r) "paused"),
             (_ || _ || _ || _); simpl; intuition discriminate.
  - intros Hin. unfold Dashboard.tab_rows in Hin. apply filter_In in Hin as [_ Hc].
    apply String.eqb_eq in Hc. rewrite Hc. reflexivity.
Qed.

Lemma row_buttons_witness :
  Dashboard.row_actions (sample_record "completed") = [Dashboard.ADelete].
Proof.
  apply (proj2 (proj2 (row_buttons [sample_record "completed"] (sample_record "completed")))).
  left. reflexivity.
Defined.

Module ProgressFacts.
Import ProgressCell.
Local Open Scope Q_scope.

Lemma Qle_bool_cases (a b : Q) :
  (Qle_bool a b = true /\ a <= b) \/ (Qle_bool a b = false /\ b < a).
Proof.
  destruct (Qle_bool a b) eqn:E; [left; split; [done|apply Qle_bool_iff; exact E]|].
  right. split; [done|]. apply Qnot_le_lt. intros H. apply Qle_bool_iff in H. congruence.
Qed.

Lemma bar_width_cases (p : Q) :
  (Qeq_bool p 0 = true /\ p == 0 /\ bar_width p == 0) \/
  (Qeq_bool p 0 = false /\ ~ p == 0 /\
     ((p <= 0 /\ bar_width p == 0) \/ (0 <= p <= 100 /\ bar_width p == p) \/
      (100 <= p /\ bar_width p == 100))).
Proof.
  unfold bar_width, progress_or_zero, Qmin', Qmax'.
  destruct (Qeq_bool p 0) eqn:E.
  - left. apply Qeq_bool_iff in E. split; [done|split; [exact E|]].
    destruct (Qle_bool_cases 0 0) as [[-> _]|[-> H]]; [|lra].
    destruct (Qle_bool_cases 100 0) as [[-> H]|[-> _]]; lra.
  - right. split; [done|split; [intros H; apply Qeq_bool_iff in H; congruence|]].
    destruct (Qle_bool_cases 0 p) as [[-> H0]|[-> H0]].
    + destruct (Qle_bool_cases 100 p) as [[-> H1]|[-> H1]]; [right; right; lra|].
      right; left; lra.
    + destruct (Qle_bool_cases 100 0) as [[-> H1]|[-> _]]; [lra|]. left. lra.
Qed.

End ProgressFacts.

(** The progress bar's width stays within 0% and 100% and equals the
    progress inside that range; the label next to it is the rounded
    progress without clamping: from 100.5 on it reads above 100% on a full
    bar, and below -0.5 it is negative on an empty bar. *)
Theorem progress_bar_clamped (p : Q) :
  (0 <= ProgressCell.bar_width p <= 100)%Q /\
  ((0 <= p <= 100)%Q -> (ProgressCell.bar_width p == p)%Q) /\
  ((201 # 2 <= p)%Q -> (ProgressCell.bar_width p == 100)%Q /\ (101 <= ProgressCell.bar_label p)%Z) /\
  ((p < -(1 # 2))%Q -> (ProgressCell.bar_width p == 0)%Q /\ (ProgressCell.bar_label p < 0)%Z).
Proof.
  pose proof (ProgressFacts.bar_width_cases p) as Hc.
  assert (Hlab : Qeq_bool p 0 = false -> ProgressCell.bar_label p = Qfloor (p + (1 # 2))).
  { intros E. unfold ProgressCell.bar_label, ProgressCell.js_round. rewrite E. reflexivity. }
  split; [|split; [|split]].
  - destruct Hc as [[_ [_ H]]|[_ [_ [[_ H]|[[? H]|[_ H]]]]]]; rewrite H; lra.
  - intros Hp. destruct Hc as [[_ [H0 H]]|[_ [_ [[? H]|[[? H]|[? H]]]]]]; rewrite H; lra.
  - intros Hp. destruct Hc as [[_ [H0 _]]|[E [_ [[? H]|[[? H]|[? H]]]]]]; try lra.
    split; [exact H|]. rewrite Hlab by exact E.
    rewrite <- (Qfloor_Z 101). apply Qfloor_resp_le. unfold inject_Z. lra.
  - intros Hp. destruct Hc as [[_ [H0 _]]|[E [_ [[? H]|[[? H]|[? H]]]]]]; try lra.
    split; [exact H|]. rewrite Hlab by exact E.
    pose proof (Qfloor_le (p + (1 # 2))) as Hf.
    rewrite Zlt_Qlt. unfold inject_Z at 2. lra.
Qed.

Lemma progress_bar_clamped_witness :
  (ProgressCell.bar_width 150 == 100)%Q /\ (101 <= ProgressCell.bar_label 150)%Z.
Proof.
  apply (proj1 (proj2 (proj2 (progress_bar_clamped 150)))).
  unfold Qle. simpl. lia.
Defined.

Module RuleEditorFacts.
Import Http RuleForm RuleEditor.

Lemma or_null_opt_or (x : option string) :
  or_null (opt_or x "") = match x with Some s => or_null s | None => None end.
Proof.
  destruct x as [s|]; [|reflexivity]. unfold opt_or, or_default, or_null.
  destruct (String.eqb_spec s ""); [reflexivity|].
  destruct (String.eqb_spec s ""); congruence.
Qed.

Lemma opt_or_template (x : option string) :
  or_null (opt_or x default_template) = Some (opt_or x default_template).
Proof.
  unfold or_null. destruct (String.eqb_spec (opt_or x default_template) "") as [E|]; [|reflexivity].
  exfalso. destruct x as [s|]; unfold opt_or, or_default in E; [|discriminate].
  destruct (String.eqb_spec s ""); [discriminate|congruence].
Qed.

End RuleEditorFacts.

(** A new rule ("+ 新建规则") cannot be saved before a chat is chosen; once
    a chat is chosen, saving the untouched form creates (POST) a rule for
    mp4, mp3 and jpg of any size, with the default file name template, no
    save directory, matching every message, enabled. *)
Theorem new_rule_defaults (c : Z) :
  c <> 0%Z ->
  RuleForm.handleSaveRule (RuleEditor.form RuleEditor.handleCreateRule) = None /\
  RuleForm.handleSaveRule (RuleEditor.form (RuleEditor.choose_chat c RuleEditor.handleCreateRule))
  = Some {| RuleForm.chat_id := c; RuleForm.mode := RuleForm.Monitor;
            RuleForm.include_extensions := Some "mp4,mp3,jpg";
            RuleForm.size_range := "0"; RuleForm.save_dir := None;
            RuleForm.filename_template := Some RuleEditor.default_template;
            RuleForm.rd_match_mode := RuleForm.MAll;
            RuleForm.include_keywords := None; RuleForm.exclude_keywords := None;
            RuleForm.enabled := true |} /\
  RuleEditor.save_request (RuleEditor.choose_chat c RuleEditor.handleCreateRule)
  = Some (Http.mk Http.POST "/group-rules").
Proof.
  intros Hc. unfold RuleEditor.save_request, RuleForm.handleSaveRule. simpl.
  destruct (Z.eqb_spec c 0) as [E|_]; [contradiction|].
  split; [reflexivity|split; reflexivity].
Qed.

Lemma new_rule_defaults_witness :
  RuleEditor.save_request (RuleEditor.choose_chat (-1001234)%Z RuleEditor.handleCreateRule)
  = Some (Http.mk Http.POST "/group-rules").
Proof. apply (new_rule_defaults (-1001234)%Z). discriminate. Defined.

(** Editing a rule and saving it without changes sends [PUT
    /group-rules/:id] with the rule's chat, extensions, save directory
    (empty ones as [null]) and size range (["0"] when absent), the default
    template in place of a missing one, and [enabled: true], also for a
    rule that was disabled. *)
Theorem edit_then_save (r : RuleEditor.GroupRule) :
  RuleEditor.gr_chat_id r <> 0%Z -> RuleEditor.gr_id r <> 0 ->
  exists d,
    RuleForm.handleSaveRule (RuleEditor.form (RuleEditor.handleEditRule r)) = Some d /\
    RuleForm.chat_id d = RuleEditor.gr_chat_id r /\
    RuleForm.enabled d = true /\
    RuleForm.include_extensions d =
      match RuleEditor.gr_include_extensions r with
      | Some s => RuleForm.or_null s | None => None end /\
    RuleForm.save_dir d =
      match RuleEditor.gr_save_dir r with
      | Some s => RuleForm.or_null s | None => None end /\
    RuleForm.size_range d = RuleEditor.opt_or (RuleEditor.gr_size_range r) "0" /\
    RuleForm.filename_template d =
      Some (RuleEditor.opt_or (RuleEditor.gr_filename_template r) RuleEditor.default_template) /\
    RuleEditor.save_request (RuleEditor.handleEditRule r)
      = Some (Http.mk Http.PUT ("/group-rules/" +:+ pretty (RuleEditor.gr_id r))).
Proof.
  intros Hc Hid.
  unfold RuleEditor.save_request, RuleForm.handleSaveRule. simpl.
  destruct (Z.eqb_spec (RuleEditor.gr_chat_id r) 0) as [E|_]; [contradiction|].
  destruct (N.eqb_spec (RuleEditor.gr_id r) 0) as [E|_]; [contradiction|].
  eexists. split; [reflexivity|]. simpl.
  rewrite !RuleEditorFacts.or_null_opt_or, RuleEditorFacts.opt_or_template.
  repeat split.
  unfold RuleEditor.opt_or, RuleForm.or_default.
  destruct (RuleEditor.gr_size_range r) as [s|]; [|reflexivity].
  destruct (String.eqb_spec s "") as [->|Hs]; [reflexivity|].
  repeat rewrite (proj2 (String.eqb_neq s "") Hs). reflexivity.
Qed.

Definition disabled_rule : RuleEditor.GroupRule :=
  {| RuleEditor.gr_id := 3; RuleEditor.gr_chat_id := (-100777)%Z;
     RuleEditor.gr_mode := RuleForm.History;
     RuleEditor.gr_include_extensions := Some "";
     RuleEditor.gr_size_range := None;
     RuleEditor.gr_save_dir := Some "media/tv";
     RuleEditor.gr_filename_template := None;
     RuleEditor.gr_match_mode := None;
     RuleEditor.gr_include_keywords := None;
     RuleEditor.gr_exclude_keywords := None;
     RuleEditor.gr_enabled := false |}.

Lemma edit_then_save_witness :
  exists d,
    RuleForm.handleSaveRule (RuleEditor.form (RuleEditor.handleEditRule disabled_rule)) = Some d /\
    RuleForm.chat_id d = RuleEditor.gr_chat_id disabled_rule /\
    RuleForm.enabled d = true /\
    RuleForm.include_extensions d =
      match RuleEditor.gr_include_extensions disabled_rule with
      | Some s => RuleForm.or_null s | None => None end /\
    RuleForm.save_dir d =
      match RuleEditor.gr_save_dir disabled_rule with
      | Some s => RuleForm.or_null s | None => None end /\
    RuleForm.size_range d = RuleEditor.opt_or (RuleEditor.gr_size_range disabled_rule) "0" /\
    RuleForm.filename_template d =
      Some (RuleEditor.opt_or (RuleEditor.gr_filename_template disabled_rule) RuleEditor.default_template) /\
    RuleEditor.save_request (RuleEditor.handleEditRule disabled_rule)
      = Some (Http.mk Http.PUT ("/group-rules/" +:+ pretty (RuleEditor.gr_id disabled_rule))).
Proof. apply edit_then_save; [discriminate|discriminate]. Defined.

Module AuthFacts.
Import Auth.

Lemma get_set_header (k k' v : string) (hs : list (string * string)) :
  get_header k (set_header k' v hs) = if String.eqb k k' then Some v else get_header k hs.
Proof.
  induction hs as [|[a b] hs IH]; simpl.
  - destruct (String.eqb k k'); reflexivity.
  - destruct (String.eqb_spec k' a) as [->|Ha]; simpl.
    + destruct (String.eqb k a); reflexivity.
    + rewrite IH. destruct (String.eqb_spec k k') as [->|]; [|reflexivity].
      destruct (String.eqb_spec k' a); [contradiction|reflexivity].
Qed.

Lemma route_logged_out (path : string) : render 2 None path = PLogin.
Proof.
  unfold render, route, RequireAuth. simpl.
  destruct (String.eqb path "/login"); [reflexivity|].
  destruct (String.eqb path "/"); [reflexivity|].
  destruct (String.eqb path "/settings"); reflexivity.
Qed.

End AuthFacts.

(** Every API call of the dashboard carries [X-Admin-Token] with the stored
    token exactly when [RequireAuth] lets the dashboard and the settings
    page render (a non-empty stored token); the interceptor changes no
    other header, and without a token it leaves the headers as they are. *)
Theorem token_header_matches_guard (token : option string)
    (headers : option (list (string * string))) :
  (Auth.truthy token = true ->
     exists t h, token = Some t /\ Auth.request_interceptor token headers = Some h /\
       Auth.get_header "X-Admin-Token" h = Some t /\
       forall k, k <> "X-Admin-Token" ->
         Auth.get_header k h = Auth.get_header k (match headers with Some h0 => h0 | None => [] end)) /\
  (Auth.truthy token = false -> Auth.request_interceptor token headers = headers) /\
  (Auth.render 3 token "/" = Auth.PDashboard <-> Auth.truthy token = true) /\
  (Auth.render 3 token "/settings" = Auth.PSettings <-> Auth.truthy token = true).
Proof.
  split; [|split; [|split]].
  - destruct token as [t|]; simpl; [|discriminate].
    intros Ht. destruct (String.eqb_spec t "") as [->|Hne]; [discriminate|].
    do 2 eexists. split; [reflexivity|split; [reflexivity|split]].
    + rewrite AuthFacts.get_set_header, String.eqb_refl. reflexivity.
    + intros k Hk. rewrite AuthFacts.get_set_header.
      destruct (String.eqb_spec k "X-Admin-Token"); [contradiction|reflexivity].
  - destruct token as [t|]; simpl; [|reflexivity].
    intros Ht. destruct (String.eqb t ""); [reflexivity|discriminate].
  - unfold Auth.render, Auth.route, Auth.RequireAuth. simpl.
    destruct (Auth.truthy token); simpl; split; congruence.
  - unfold Auth.render, Auth.route, Auth.RequireAuth. simpl.
    destruct (Auth.truthy token); simpl; split; congruence.
Qed.

Lemma token_header_matches_guard_witness :
  exists t h, Some "tok"%string = Some t /\
    Auth.request_interceptor (Some "tok"%string) None = Some h /\
    Auth.get_header "X-Admin-Token" h = Some t /\
    forall k, k <> "X-Admin-Token" -> Auth.get_header k h = Auth.get_header k [].
Proof. apply (proj1 (token_header_matches_guard (Some "tok"%string) None)). reflexivity. Defined.

(** An answer with status 401 to any dashboard call logs the admin out: the
    stored token is removed, the browser is sent to [/login] unless it is
    already there, and from then on every path of the app renders the login
    page.  Any other error leaves token and location alone.  (The error is
    rethrown in every case.) *)
Theorem unauthorized_logs_out (b : Auth.browser) :
  Auth.admin_token (fst (Auth.on_error b (Some 401))) = None /\
  Auth.pathname (fst (Auth.on_error b (Some 401))) = "/login" /\
  (snd (Auth.on_error b (Some 401)) = true <-> Auth.pathname b <> "/login") /\
  (forall path, Auth.render 2 (Auth.admin_token (fst (Auth.on_error b (Some 401)))) path
                = Auth.PLogin) /\
  (forall s, s <> 401 -> Auth.on_error b (Some s) = (b, false)) /\
  Auth.on_error b None = (b, false).
Proof.
  unfold Auth.on_error. simpl.
  destruct (String.eqb_spec (Auth.pathname b) "/login") as [E|E]; simpl.
  - split; [reflexivity|split; [exact E|split; [split; [discriminate|congruence]|]]].
    split; [apply AuthFacts.route_logged_out|split; [|reflexivity]].
    intros s Hs. destruct (N.eqb_spec s 401); [contradiction|reflexivity].
  - split; [reflexivity|split; [reflexivity|split; [split; [intros _; exact E|reflexivity]|]]].
    split; [apply AuthFacts.route_logged_out|split; [|reflexivity]].
    intros s Hs. destruct (N.eqb_spec s 401); [contradiction|reflexivity].
Qed.

Lemma unauthorized_logs_out_witness :
  Auth.on_error {| Auth.admin_token := Some "t"%string; Auth.pathname := "/" |} (Some 500)
  = ({| Auth.admin_token := Some "t"%string; Auth.pathname := "/" |}, false).
Proof.
  apply (proj1 (proj2 (proj2 (proj2 (proj2
    (unauthorized_logs_out {| Auth.admin_token := Some "t"%string; Auth.pathname := "/" |})))))).
  discriminate.
Defined.



Module ValidateFacts.
Import Str JoinSplit Validate.

Lemma split_on_cons (c x : ascii) (s : string) :
  split_on c (String x s) =
  if Ascii.eqb x c then "" :: split_on c s
  else match split_on c s with p :: ps => String x p :: ps | [] => [String x ""] end.
Proof. reflexivity. Qed.

Lemma ids_fail (s : string) : dfa_run ids_step IdFail s = IdFail.
Proof. induction s; simpl; auto. Qed.

Lemma ids_run (s : string) :
  ids_accept (dfa_run ids_step IdStart s) = forallb is_numeral (split_on "," s) /\
  ids_accept (dfa_run ids_step IdComma s) = forallb is_numeral (split_on "," s) /\
  ids_accept (dfa_run ids_step IdDigits s) =
    match split_on "," s with p :: ps => all_digits p && forallb is_numeral ps | [] => false end.
Proof.
  induction s as [|x s IH]; [repeat split|].
  destruct IH as [IHs [IHc IHd]].
  simpl dfa_run. rewrite split_on_cons.
  destruct (Ascii.eqb_spec x ",") as [->|Hx].
  - simpl. rewrite ids_fail, IHc. repeat split.
  - destruct (split_on "," s) as [|p ps] eqn:E; [destruct (split_on_nonempty "," s E)|].
    assert (Hx' : Ascii.eqb x "," = false) by (apply Ascii.eqb_neq; exact Hx).
    simpl forallb.
    change (is_numeral (String x p)) with (is_digit x && all_digits p).
    change (all_digits (String x p)) with (is_digit x && all_digits p).
    destruct (is_digit x); cbv beta iota; rewrite ?ids_fail, ?IHd; repeat split.
Qed.

Lemma ids_match_split (s : string) :
  ids_match s = forallb is_numeral (split_on "," s).
Proof. apply (ids_run s). Qed.

Lemma remove_spaces_split (s : string) :
  split_on "," (remove_spaces s) = map remove_spaces (split_on "," s).
Proof.
  induction s as [|x s IH]; [reflexivity|].
  rewrite split_on_cons. simpl remove_spaces.
  destruct (Ascii.eqb_spec x ",") as [->|Hx].
  - simpl. rewrite IH. reflexivity.
  - destruct (split_on "," s) as [|p ps] eqn:E; [destruct (split_on_nonempty "," s E)|].
    destruct (ExtButtons.js_space x) eqn:Sx.
    + rewrite IH. simpl. rewrite Sx. reflexivity.
    + rewrite split_on_cons, IH. simpl.
      assert (Hx' : Ascii.eqb x "," = false) by (apply Ascii.eqb_neq; exact Hx).
      rewrite Hx', Sx. reflexivity.
Qed.

Lemma forallb_Forall_eq {A} (f : A -> bool) (l : list A) :
  forallb f l = true <-> Forall (fun x => f x = true) l.
Proof.
  rewrite forallb_forall, List.Forall_forall. reflexivity.
Qed.

(* bot token *)

Lemma bot_fail (s : string) : dfa_run bot_step BFail s = BFail.
Proof. induction s; simpl; auto. Qed.

Lemma bot_tail (s : string) : bot_accept (dfa_run bot_step BTail s) = all_tok s.
Proof.
  induction s as [|x s IH]; [reflexivity|]. simpl.
  destruct (is_tok_char x); simpl; [exact IH|]. rewrite bot_fail. reflexivity.
Qed.

Lemma bot_colon (s : string) :
  bot_accept (dfa_run bot_step BColon s) = negb (String.eqb s "") && all_tok s.
Proof.
  destruct s as [|x s]; [reflexivity|]. simpl.
  destruct (is_tok_char x); simpl; [apply bot_tail|]. rewrite bot_fail. reflexivity.
Qed.

Lemma all_tok_no_colon (s : string) : all_tok s = true -> has_char ":" s = false.
Proof.
  induction s as [|x s IH]; [reflexivity|]. simpl.
  intros H. apply andb_prop in H as [Hx Hs]. rewrite IH by exact Hs.
  destruct (Ascii.eqb_spec x ":") as [->|]; [discriminate|reflexivity].
Qed.

Lemma all_digits_no_colon (s : string) : all_digits s = true -> has_char ":" s = false.
Proof.
  induction s as [|x s IH]; [reflexivity|]. simpl.
  intros H. apply andb_prop in H as [Hx Hs]. rewrite IH by exact Hs.
  destruct (Ascii.eqb_spec x ":") as [->|]; [discriminate|reflexivity].
Qed.

Lemma single_piece (s : string) :
  match split_on ":" s with
  | [b] => negb (String.eqb b "") && all_tok b
  | _ => false
  end = negb (String.eqb s "") && all_tok s.
Proof.
  destruct (has_char ":" s) eqn:H.
  - pose proof (join_split ":" s) as Hj. pose proof (split_on_pieces ":" s) as Hp.
    destruct (split_on ":" s) as [|b [|b' bs]] eqn:E.
    + destruct (split_on_nonempty ":" s E).
    + simpl in Hj. subst b. inversion Hp; subst. congruence.
    + destruct (all_tok s) eqn:T; [rewrite all_tok_no_colon in H; [discriminate|exact T]|].
      rewrite andb_false_r. reflexivity.
  - rewrite split_on_no_sep by exact H. reflexivity.
Qed.

Lemma bot_digits (s : string) :
  bot_accept (dfa_run bot_step BDigits s) =
  match split_on ":" s with
  | [a; b] => all_digits a && (negb (String.eqb b "") && all_tok b)
  | _ => false
  end.
Proof.
  induction s as [|x s IH]; [reflexivity|].
  simpl dfa_run. rewrite split_on_cons.
  destruct (Ascii.eqb_spec x ":") as [->|Hx].
  - simpl. rewrite bot_colon, <- single_piece.
    destruct (split_on ":" s) as [|b [|b' bs]]; reflexivity.
  - assert (Hx' : Ascii.eqb x ":" = false) by (apply Ascii.eqb_neq; exact Hx).
    rewrite ?Hx'.
    destruct (split_on ":" s) as [|p ps] eqn:E; [destruct (split_on_nonempty ":" s E)|].
    change (all_digits (String x p)) with (is_digit x && all_digits p).
    destruct (is_digit x); cbv beta iota.
    + rewrite IH. destruct ps as [|b [|b' bs]]; reflexivity.
    + rewrite bot_fail. destruct ps as [|b [|b' bs]]; reflexivity.
Qed.

Lemma bot_match_split (s : string) :
  bot_match s =
  match split_on ":" s with
  | [a; b] => is_numeral a && (negb (String.eqb b "") && all_tok b)
  | _ => false
  end.
Proof.
  unfold bot_match. destruct s as [|x s]; [reflexivity|].
  simpl dfa_run. rewrite split_on_cons.
  destruct (Ascii.eqb_spec x ":") as [->|Hx].
  - simpl. rewrite bot_fail. destruct (split_on ":" s) as [|b [|b' bs]]; reflexivity.
  - assert (Hx' : Ascii.eqb x ":" = false) by (apply Ascii.eqb_neq; exact Hx).
    rewrite ?Hx'.
    destruct (split_on ":" s) as [|p ps] eqn:E; [destruct (split_on_nonempty ":" s E)|].
    change (is_numeral (String x p)) with (is_digit x && all_digits p).
    destruct (is_digit x); cbv beta iota.
    + rewrite bot_digits, E. destruct ps as [|b [|b' bs]]; reflexivity.
    + rewrite bot_fail. destruct ps as [|b [|b' bs]]; reflexivity.
Qed.

Lemma is_numeral_digits (a : string) : is_numeral a = true -> all_digits a = true.
Proof. unfold is_numeral. intros H. apply andb_prop in H as [_ H]. exact H. Qed.

Lemma bot_match_iff (s : string) :
  bot_match s = true <->
  exists a b, s = a +:+ String ":" b /\ is_numeral a = true /\ b <> "" /\ all_tok b = true.
Proof.
  rewrite bot_match_split. split.
  - pose proof (join_split ":" s) as Hj.
    destruct (split_on ":" s) as [|a [|b [|b' bs]]]; try discriminate.
    intros H. apply andb_prop in H as [Ha H]. apply andb_prop in H as [Hb Ht].
    exists a, b. split; [|split; [exact Ha|split; [|exact Ht]]].
    + rewrite <- Hj. reflexivity.
    + intros ->. discriminate.
  - intros (a & b & -> & Ha & Hb & Ht).
    rewrite split_on_app.
    rewrite (split_on_no_sep _ a) by (apply all_digits_no_colon, is_numeral_digits, Ha).
    rewrite (split_on_no_sep _ b) by (apply all_tok_no_colon, Ht).
    simpl. rewrite Ha, Ht. destruct (String.eqb_spec b ""); [contradiction|reflexivity].
Qed.

(* phone *)

Lemma phone_fail (s : string) : dfa_run phone_step PFail s = PFail.
Proof. induction s; simpl; auto. Qed.

Lemma phone_count (d : string) (n : nat) :
  (n <= 15)%nat ->
  phone_accept (dfa_run phone_step (PCount n) d) =
  all_digits d && (10 <=? n + String.length d)%nat && (n + String.length d <=? 15)%nat.
Proof.
  revert n. induction d as [|x d IH]; intros n Hn.
  - simpl. rewrite Nat.add_0_r. replace (n <=? 15)%nat with true; [rewrite andb_true_r; reflexivity|].
    symmetry. apply Nat.leb_le. exact Hn.
  - simpl dfa_run.
    change (String.length (String x d)) with (S (String.length d)).
    rewrite Nat.add_succ_r.
    change (all_digits (String x d)) with (is_digit x && all_digits d).
    destruct (is_digit x); cbn [andb]; [|rewrite phone_fail; reflexivity].
    destruct (Nat.ltb_spec n 15) as [Hlt|Hge]; cbn [andb].
    + rewrite IH by lia. rewrite Nat.add_succ_l. reflexivity.
    + rewrite phone_fail.
      replace (S (n + String.length d) <=? 15)%nat with false
        by (symmetry; apply Nat.leb_gt; lia).
      rewrite andb_false_r. reflexivity.
Qed.

Lemma phone_match_iff (s : string) :
  phone_match s = true <->
  exists d, s = String "+" d /\ all_digits d = true /\ (10 <= String.length d <= 15)%nat.
Proof.
  unfold phone_match. destruct s as [|x d].
  - split; [discriminate|]. intros (d & H & _). discriminate.
  - simpl dfa_run. unfold phone_step at 1.
    destruct (Ascii.eqb_spec x "+") as [->|Hx].
    + rewrite phone_count by lia. rewrite Nat.add_0_l. split.
      * intros H. apply andb_prop in H as [H H2]. apply andb_prop in H as [H0 H1].
        exists d. split; [reflexivity|split; [exact H0|]].
        apply Nat.leb_le in H1, H2. lia.
      * intros (d' & E & H0 & H1). inversion E; subst.
        rewrite H0. apply andb_true_intro. split; [apply andb_true_intro; split; [reflexivity|]|];
          apply Nat.leb_le; lia.
    + rewrite phone_fail. split; [discriminate|].
      intros (d' & E & _). inversion E. contradiction.
Qed.

Lemma cond_nil (b : bool) (x : string) : (if b then [x] else []) = [] <-> b = false.
Proof. destruct b; split; congruence. Qed.

Lemma app_nil_iff {A} (l1 l2 : list A) : l1 ++ l2 = [] <-> l1 = [] /\ l2 = [].
Proof. split; [apply app_eq_nil|intros [-> ->]; reflexivity]. Qed.

End ValidateFacts.

(** [validateConfig] accepts a configuration exactly when the API ID is a
    non-empty string of digits, the API hash has 32 characters, the phone
    number (when set) is ["+"] and 10 to 15 digits, the bot token (when
    set) is digits, [":"] and a non-empty run of letters, digits, ["_"] and
    ["-"], every comma-separated admin user ID (when set) is a numeral once
    its white space is removed (so spaces inside one ID are dropped, not
    rejected), and the proxy port is 0 (unset) or within 1..65535. *)
Theorem validate_config_accepts (c : Validate.ConfigState) :
  Validate.validateConfig c = [] <->
  Str.is_numeral (Validate.api_id c) = true /\
  String.length (Validate.api_hash c) = 32%nat /\
  (Validate.phone_number c = "" \/
   exists d, Validate.phone_number c = String "+" d /\ Str.all_digits d = true /\
             (10 <= String.length d <= 15)%nat) /\
  (forall t, Validate.bot_token c = Some t -> t = "" \/
     exists a b, t = a +:+ String ":" b /\ Str.is_numeral a = true /\ b <> "" /\
                 Validate.all_tok b = true) /\
  (forall ids, Validate.admin_user_ids c = Some ids -> ids = "" \/
     Forall (fun p => Str.is_numeral p = true)
            (map Validate.remove_spaces (Str.split_on "," ids))) /\
  (Validate.proxy_port c = 0 \/ 1 <= Validate.proxy_port c <= 65535)%Z.
Proof.
  unfold Validate.validateConfig.
  rewrite !ValidateFacts.app_nil_iff, !ValidateFacts.cond_nil.
  rewrite negb_false_iff.
  apply Morphisms_Prop.and_iff_morphism; [reflexivity|].
  apply Morphisms_Prop.and_iff_morphism.
  { rewrite orb_false_iff, negb_false_iff, Nat.eqb_eq.
    split; [intros [_ H]; exact H|intros H; split; [|exact H]].
    destruct (String.eqb_spec (Validate.api_hash c) "") as [E|]; [|reflexivity].
    rewrite E in H. discriminate. }
  apply Morphisms_Prop.and_iff_morphism.
  { rewrite andb_false_iff, !negb_false_iff, ValidateFacts.phone_match_iff, String.eqb_eq.
    reflexivity. }
  apply Morphisms_Prop.and_iff_morphism.
  { unfold Validate.opt_truthy, Validate.opt_str.
    destruct (Validate.bot_token c) as [t|]; simpl.
    - rewrite andb_false_iff, !negb_false_iff, ValidateFacts.bot_match_iff, String.eqb_eq.
      split.
      + intros H t' E. inversion E; subst. exact H.
      + intros H. apply H. reflexivity.
    - split; [intros _ t' E; discriminate|reflexivity]. }
  apply Morphisms_Prop.and_iff_morphism.
  { unfold Validate.opt_truthy, Validate.opt_str.
    destruct (Validate.admin_user_ids c) as [ids|]; simpl.
    - rewrite andb_false_iff, !negb_false_iff, ValidateFacts.ids_match_split,
        ValidateFacts.remove_spaces_split, ValidateFacts.forallb_Forall_eq, String.eqb_eq.
      split.
      + intros H t' E. inversion E; subst. exact H.
      + intros H. apply H. reflexivity.
    - split; [intros _ t' E; discriminate|reflexivity]. }
  rewrite andb_false_iff, negb_false_iff, orb_false_iff, Z.eqb_eq, !Z.ltb_ge. lia.
Qed.

Definition sample_config (ids : string) : Validate.ConfigState :=
  {| Validate.api_id := "123456"; Validate.api_hash := "0123456789abcdef0123456789abcdef";
     Validate.phone_number := "+8612345678901"; Validate.bot_token := Some "123:AbC_-x";
     Validate.admin_user_ids := Some ids; Validate.proxy_port := 0%Z |}.

Lemma validate_config_accepts_witness :
  Validate.validateConfig (sample_config "1 2, 3") = [].
Proof.
  apply (proj2 (validate_config_accepts (sample_config "1 2, 3"))).
  split; [reflexivity|split; [reflexivity|split; [|split; [|split; [|left; reflexivity]]]]].
  - right. exists "8612345678901"%string. split; [reflexivity|split; [reflexivity|simpl; lia]].
  - intros t E. inversion E. right. exists "123"%string, "AbC_-x"%string.
    split; [reflexivity|split; [reflexivity|split; [discriminate|reflexivity]]].
  - intros ids E. inversion E. right. simpl. repeat constructor.
Defined.

Module LoginFlowFacts.
Import LoginFlow.

Definition pw_inv (s : session) : Prop :=
  password s <> "" -> loginStep s = SubmitPassword \/ loginStep s = Connected.

Lemma pw_inv_handle (p : page_state) (e : event) : pw_inv (sess p) -> pw_inv (sess (handle p e)).
Proof.
  unfold pw_inv. intros H.
  destruct p as [[st c pw h] bz pd n]; simpl in H.
  destruct e as [|r| |a| |ok|b|v|v]; simpl.
  - destruct (bz || step_eqb st Connected); exact H.
  - destruct (awaiting _ RSend); [|exact H]. simpl.
    unfold sendCode. destruct r as [[next|]|]; [|exact H|exact H].
    destruct (String.eqb next "verify_code"); [simpl; intros E; congruence|exact H].
  - destruct (bz || step_eqb st Connected); exact H.
  - destruct (awaiting _ RVerify); [|exact H]. simpl.
    destruct a; simpl; auto.
  - destruct bz; exact H.
  - destruct (awaiting _ RRestart); [|exact H]. simpl.
    unfold restartClient. destruct ok; [simpl; intros E; congruence|exact H].
  - destruct n; [exact H|]. simpl. destruct b; simpl; auto.
  - destruct (step_eqb st Connected); exact H.
  - destruct st; simpl; auto; intros _; left; reflexivity.
Qed.

Lemma pw_inv_run (evs : list event) (p : page_state) :
  pw_inv (sess p) -> pw_inv (sess (fold_left handle evs p)).
Proof.
  revert p. induction evs as [|e evs IH]; intros p H; [exact H|].
  simpl. apply IH, pw_inv_handle, H.
Qed.

(** Connected, with no code or verification request awaiting its answer. *)
Definition settled (p : page_state) : Prop :=
  loginStep (sess p) = Connected /\ pending p <> Some RSend /\ pending p <> Some RVerify.

Lemma settled_handle (p : page_state) (e : event) :
  settled p -> e <> ERestartAnswer true -> settled (handle p e).
Proof.
  intros [Hc [Hs Hv]] He.
  destruct p as [[st c pw h] bz pd n]; simpl in *. subst st.
  unfold settled. destruct e as [|r| |a| |ok|b|v|v]; simpl.
  - destruct bz; simpl; auto.
  - unfold awaiting; simpl. destruct pd as [[| |]|]; simpl; auto. contradiction.
  - destruct bz; simpl; auto.
  - unfold awaiting; simpl. destruct pd as [[| |]|]; simpl; auto. contradiction.
  - destruct bz; simpl; [auto|split; [reflexivity|split; discriminate]].
  - unfold awaiting; simpl. destruct pd as [[| |]|]; simpl; auto.
    destruct ok; [contradiction|simpl; auto].
  - destruct n; simpl; [auto|]. destruct b; simpl; auto.
  - auto.
  - auto.
Qed.

Lemma settled_run (evs : list event) (p : page_state) :
  settled p -> ~ In (ERestartAnswer true) evs -> settled (fold_left handle evs p).
Proof.
  revert p. induction evs as [|e evs IH]; intros p H Hn; [exact H|].
  simpl. apply IH.
  - apply settled_handle; [exact H|]. intros ->. apply Hn. left. reflexivity.
  - intros Hin. apply Hn. right. exact Hin.
Qed.

End LoginFlowFacts.

(** The Telegram two-step password goes into the [/auth/verify] request
    only when the button is clicked in the password step, and the login
    code only outside it; the password the page holds is non-empty only in
    the password step or when connected.  Once connected with no code or
    verification request awaiting its answer, the page stays connected
    until a client restart succeeds, whatever else happens (an answer to a
    request sent before the connection can still move it, see
    [stale_send_answer]). *)
Theorem login_secrets_handling (phone : string) (evs : list LoginFlow.event) :
  (In "password" (map fst (LoginFlow.verify_payload phone (LoginFlow.sess (LoginFlow.run evs))))
     <-> LoginFlow.loginStep (LoginFlow.sess (LoginFlow.run evs)) = LoginFlow.SubmitPassword) /\
  (In "code" (map fst (LoginFlow.verify_payload phone (LoginFlow.sess (LoginFlow.run evs))))
     <-> LoginFlow.loginStep (LoginFlow.sess (LoginFlow.run evs)) <> LoginFlow.SubmitPassword) /\
  (LoginFlow.password (LoginFlow.sess (LoginFlow.run evs)) <> "" ->
     LoginFlow.loginStep (LoginFlow.sess (LoginFlow.run evs)) = LoginFlow.SubmitPassword \/
     LoginFlow.loginStep (LoginFlow.sess (LoginFlow.run evs)) = LoginFlow.Connected) /\
  (LoginFlow.loginStep (LoginFlow.sess (LoginFlow.run evs)) = LoginFlow.Connected ->
   LoginFlow.pending (LoginFlow.run evs) <> Some LoginFlow.RSend ->
   LoginFlow.pending (LoginFlow.run evs) <> Some LoginFlow.RVerify ->
   forall later, ~ In (LoginFlow.ERestartAnswer true) later ->
     LoginFlow.loginStep (LoginFlow.sess (fold_left LoginFlow.handle later (LoginFlow.run evs)))
     = LoginFlow.Connected).
Proof.
  split; [|split; [|split]].
  - unfold LoginFlow.verify_payload.
    destruct (LoginFlow.loginStep _); simpl; intuition (try discriminate; try congruence).
  - unfold LoginFlow.verify_payload.
    destruct (LoginFlow.loginStep _); simpl; intuition (try discriminate; try congruence).
  - apply LoginFlowFacts.pw_inv_run. unfold LoginFlowFacts.pw_inv. simpl. congruence.
  - intros Hc Hs Hv later Hl.
    apply (LoginFlowFacts.settled_run later (LoginFlow.run evs)); [|exact Hl].
    split; [exact Hc|split; assumption].
Qed.

Definition sample_login_events : list LoginFlow.event :=
  [LoginFlow.EStatusAnswer true].

Definition sample_later_events : list LoginFlow.event :=
  [LoginFlow.ETypeCode "12345"; LoginFlow.ESendClick; LoginFlow.EVerifyClick;
   LoginFlow.ERestartClick; LoginFlow.ERestartAnswer false; LoginFlow.EStatusAnswer false].

Lemma login_secrets_handling_witness :
  LoginFlow.loginStep (LoginFlow.sess
    (fold_left LoginFlow.handle sample_later_events (LoginFlow.run sample_login_events)))
  = LoginFlow.Connected.
Proof.
  apply (proj2 (proj2 (proj2 (login_secrets_handling "+8612345678901" sample_login_events)))).
  - reflexivity.
  - discriminate.
  - discriminate.
  - simpl. intros H. repeat destruct H as [H|H]; try discriminate; exact H.
Defined.

Module PickerFacts.
Import DialogPicker.

Lemma page_slice {A} (xs : list A) (i : Z) :
  (0 <= i)%Z ->
  slice xs (i * pageSize) ((i + 1) * pageSize) = firstn 10 (skipn (Z.to_nat (i * 10)) xs).
Proof.
  intros Hi. unfold slice, pageSize.
  replace (Z.ltb (i * 10) 0) with false by (symmetry; apply Z.ltb_ge; lia).
  replace (Z.ltb ((i + 1) * 10) 0) with false by (symmetry; apply Z.ltb_ge; lia).
  destruct (Z.le_gt_cases (Z.of_nat (length xs)) (i * 10)) as [Hge|Hlt].
  - rewrite !skipn_all2 by lia. rewrite !firstn_nil. reflexivity.
  - replace (Z.min (i * 10) (Z.of_nat (length xs))) with (i * 10)%Z by lia.
    set (l := skipn (Z.to_nat (i * 10)) xs).
    assert (Hl : length l = (length xs - Z.to_nat (i * 10))%nat) by (apply length_skipn).
    replace (Z.to_nat (Z.min ((i + 1) * 10) (Z.of_nat (length xs)) - i * 10))
      with (Nat.min 10 (length l)) by lia.
    rewrite <- firstn_firstn, firstn_all. reflexivity.
Qed.

Lemma chunks {A} (n : nat) (xs : list A) :
  (length xs <= 10 * n)%nat ->
  concat (map (fun i => firstn 10 (skipn (10 * i) xs)) (seq 0 n)) = xs.
Proof.
  revert xs. induction n as [|n IH]; intros xs Hn.
  - destruct xs; [reflexivity|simpl in Hn; lia].
  - change (seq 0 (S n)) with (0%nat :: seq 1 n). rewrite <- seq_shift.
    cbn [map concat]. rewrite map_map. cbv beta. rewrite Nat.mul_0_r. change (skipn 0 xs) with xs.
    assert (E : map (fun i => firstn 10 (skipn (10 * S i) xs)) (seq 0 n)
              = map (fun i => firstn 10 (skipn (10 * i) (skipn 10 xs))) (seq 0 n)).
    { apply map_ext. intros i. rewrite skipn_skipn. f_equal. f_equal. lia. }
    rewrite E, IH by (rewrite length_skipn; lia).
    apply firstn_skipn.
Qed.

Lemma picker_inv (dialogs : list Dialog) (evs : list picker_event) :
  let p := picker_run dialogs evs in
  (0 <= dialogPage p)%Z /\
  (dialogPage p = 0%Z \/
   dialogPage p < totalPages (length (groupDialogs dialogs (dialogSearch p))))%Z.
Proof.
  unfold picker_run.
  assert (H0 : let p := picker0 in (0 <= dialogPage p)%Z /\
    (dialogPage p = 0%Z \/ dialogPage p < totalPages (length (groupDialogs dialogs (dialogSearch p))))%Z)
    by (simpl; lia).
  revert H0. generalize picker0.
  induction evs as [|e evs IH]; intros p Hp; [exact Hp|].
  simpl. apply IH. clear IH. destruct p as [pg srch]. simpl in Hp |- *.
  destruct e as [| |s]; simpl.
  - destruct (_ && _) eqn:B; [|exact Hp]. simpl.
    apply andb_prop in B as [_ B]. apply negb_true_iff, Z.eqb_neq in B. lia.
  - destruct (_ && _) eqn:B; [|exact Hp]. simpl.
    apply andb_prop in B as [_ B]. apply negb_true_iff, Z.leb_gt in B. lia.
  - lia.
Qed.

End PickerFacts.

(** The dialog picker of the second rule form (search box, pages of 10):
    whatever the user clicks and types, the page index stays between 0 and
    the last page; while some group matches, the page shown is not empty and
    its "第 n / m 页" has n <= m; and the pages 1..m together list every
    matching group once, in order. *)
Theorem picker_pages_consistent (dialogs : list DialogPicker.Dialog)
    (evs : list DialogPicker.picker_event) :
  let p := DialogPicker.picker_run dialogs evs in
  let gs := DialogPicker.groupDialogs dialogs (DialogPicker.dialogSearch p) in
  (0 <= DialogPicker.dialogPage p)%Z /\
  (gs <> [] ->
     DialogPicker.currentPageDialogs gs (DialogPicker.dialogPage p) <> [] /\
     (DialogPicker.dialogPage p + 1 <= DialogPicker.totalPages (length gs))%Z) /\
  concat (map (fun i => DialogPicker.currentPageDialogs gs (Z.of_nat i))
              (seq 0 (Z.to_nat (DialogPicker.totalPages (length gs))))) = gs.
Proof.
  intros p gs.
  destruct (PickerFacts.picker_inv dialogs evs) as [H0 H1]. fold p in H0, H1. fold gs in H1.
  assert (Htp : forall n : nat, (DialogPicker.totalPages n * 10 >= Z.of_nat n)%Z /\
                  ((0 < n)%nat -> 1 <= DialogPicker.totalPages n /\
                   (DialogPicker.totalPages n - 1) * 10 < Z.of_nat n)%Z).
  { intros n. unfold DialogPicker.totalPages, DialogPicker.pageSize.
    pose proof (Z.mul_div_le (Z.of_nat n + 10 - 1) 10 ltac:(lia)).
    pose proof (Z.mod_pos_bound (Z.of_nat n + 10 - 1) 10 ltac:(lia)).
    pose proof (Z.div_mod (Z.of_nat n + 10 - 1) 10 ltac:(lia)).
    split; [lia|]. intros Hn. split; [apply Z.div_le_lower_bound; lia|lia]. }
  split; [exact H0|split].
  - intros Hne.
    assert (Hlen : (0 < length gs)%nat) by (destruct gs; [contradiction|simpl; lia]).
    destruct (Htp (length gs)) as [_ Hb]. specialize (Hb Hlen) as [Hb1 Hb2].
    assert (Hpg : (DialogPicker.dialogPage p * 10 < Z.of_nat (length gs))%Z) by lia.
    split; [|lia].
    unfold DialogPicker.currentPageDialogs. rewrite PickerFacts.page_slice by exact H0.
    destruct (skipn (Z.to_nat (DialogPicker.dialogPage p * 10)) gs) eqn:E; [|discriminate].
    apply (f_equal (@length _)) in E. rewrite length_skipn in E. simpl in E. lia.
  - destruct (Htp (length gs)) as [Ha _].
    erewrite map_ext_in.
    + apply PickerFacts.chunks. lia.
    + intros i _. unfold DialogPicker.currentPageDialogs.
      rewrite PickerFacts.page_slice by lia. f_equal. f_equal. lia.
Qed.

Definition sample_dialogs : list DialogPicker.Dialog :=
  map (fun i => {| DialogPicker.d_id := Z.of_nat i; DialogPicker.title := "group";
                   DialogPicker.username := None; DialogPicker.is_group := true |})
      (seq 0 12).

Lemma picker_pages_consistent_witness :
  DialogPicker.currentPageDialogs
    (DialogPicker.groupDialogs sample_dialogs
       (DialogPicker.dialogSearch (DialogPicker.picker_run sample_dialogs [DialogPicker.Next])))
    (DialogPicker.dialogPage (DialogPicker.picker_run sample_dialogs [DialogPicker.Next])) <> [] /\
  (DialogPicker.dialogPage (DialogPicker.picker_run sample_dialogs [DialogPicker.Next]) + 1 <=
   DialogPicker.totalPages (length (DialogPicker.groupDialogs sample_dialogs
       (DialogPicker.dialogSearch (DialogPicker.picker_run sample_dialogs [DialogPicker.Next])))))%Z.
Proof.
  apply (proj1 (proj2 (picker_pages_consistent sample_dialogs [DialogPicker.Next]))).
  vm_compute. discriminate.
Defined.

Module ViteFacts.
Import ViteConfig.

Lemma removelast_ne {A} (l : list A) : l <> [] -> removelast l <> l.
Proof.
  intros Hl E. apply (f_equal (@length A)) in E.
  destruct (exists_last Hl) as [l' [a ->]].
  rewrite removelast_last, length_app in E. simpl in E. lia.
Qed.

Definition entry_version (e : version_file) : string :=
  match e with
  | Content c => let t := trim c in if String.eqb t "" then "dev" else t
  | _ => "dev"
  end.

Lemma lookup_nearest (fs : list string -> version_file) (k : nat) :
  forall (i : nat) (dir : list string),
  (k < i)%nat -> (k <= length dir)%nat ->
  fs (firstn (length dir - k) dir) <> Missing ->
  (forall j, (j < k)%nat -> fs (firstn (length dir - j) dir) = Missing) ->
  lookup fs i dir = entry_version (fs (firstn (length dir - k) dir)).
Proof.
  induction k as [|k IH]; intros i dir Hi Hk Hne Hmiss.
  - destruct i as [|i]; [lia|]. rewrite Nat.sub_0_r, firstn_all in *.
    simpl. destruct (fs dir); [contradiction|reflexivity|reflexivity].
  - destruct i as [|i]; [lia|]. simpl.
    assert (Hd : fs dir = Missing).
    { specialize (Hmiss 0%nat ltac:(lia)). rewrite Nat.sub_0_r, firstn_all in Hmiss. exact Hmiss. }
    rewrite Hd.
    assert (Hne0 : dir <> []) by (intros ->; simpl in Hk; lia).
    rewrite bool_decide_eq_false_2 by (apply removelast_ne, Hne0).
    assert (Hr : forall j, (j <= length dir - 1)%nat ->
              firstn (length (removelast dir) - j) (removelast dir) = firstn (length dir - S j) dir).
    { intros j Hj. rewrite removelast_firstn_len, firstn_firstn, length_firstn.
      f_equal. lia. }
    rewrite <- Hr by lia. apply IH; [lia| | |].
    + rewrite removelast_firstn_len, length_firstn. lia.
    + rewrite Hr by lia. exact Hne.
    + intros j Hj. rewrite Hr by lia. apply Hmiss. lia.
Qed.

Lemma lookup_all_missing (fs : list string -> version_file) :
  forall (i : nat) (dir : list string),
  (forall j, (j < i)%nat -> (j <= length dir)%nat -> fs (firstn (length dir - j) dir) = Missing) ->
  lookup fs i dir = "dev".
Proof.
  induction i as [|i IH]; intros dir H; [reflexivity|]. simpl.
  assert (Hd : fs dir = Missing).
  { specialize (H 0%nat ltac:(lia) ltac:(lia)). rewrite Nat.sub_0_r, firstn_all in H. exact H. }
  rewrite Hd. destruct (bool_decide (removelast dir = dir)) eqn:B; [reflexivity|].
  apply bool_decide_eq_false in B.
  assert (Hne0 : dir <> []) by (intros ->; apply B; reflexivity).
  assert (Hlen : (0 < length dir)%nat) by (destruct dir; [contradiction|simpl; lia]).
  apply IH. intros j Hj Hl.
  rewrite removelast_firstn_len, length_firstn in Hl.
  rewrite (Nat.min_l (Nat.pred (length dir)) (length dir)) in Hl by lia.
  rewrite removelast_firstn_len, firstn_firstn, length_firstn.
  rewrite (Nat.min_l (Nat.pred (length dir)) (length dir)) by lia.
  rewrite (Nat.min_l (Nat.pred (length dir) - j) (Nat.pred (length dir))) by lia.
  replace (Nat.pred (length dir) - j)%nat with (length dir - S j)%nat by lia.
  apply H; lia.
Qed.

Lemma lookup_nonempty (fs : list string -> version_file) :
  forall (i : nat) (dir : list string), lookup fs i dir <> "".
Proof.
  induction i as [|i IH]; intros dir; simpl; [discriminate|].
  destruct (fs dir) as [|c|]; [|cbv zeta; destruct (String.eqb_spec (trim c) "") as [E|E];
                                  [discriminate|exact E]|discriminate].
  destruct (bool_decide _); [discriminate|apply IH].
Qed.

End ViteFacts.

(** [readVersionFromRoot] never yields an empty version; the nearest
    [VERSION] among the working directory and its four nearest ancestors
    decides: its trimmed content, or ["dev"] when that is empty or the file
    cannot be read; with no [VERSION] on those levels (up to the root) the
    version is ["dev"]. *)
Theorem version_from_nearest_file (fs : list string -> ViteConfig.version_file)
    (cwd : list string) :
  ViteConfig.readVersionFromRoot fs cwd <> "" /\
  (forall k, (k < 5)%nat -> (k <= length cwd)%nat ->
     fs (firstn (length cwd - k) cwd) <> ViteConfig.Missing ->
     (forall j, (j < k)%nat -> fs (firstn (length cwd - j) cwd) = ViteConfig.Missing) ->
     ViteConfig.readVersionFromRoot fs cwd =
       match fs (firstn (length cwd - k) cwd) with
       | ViteConfig.Content c =>
           if String.eqb (ViteConfig.trim c) "" then "dev" else ViteConfig.trim c
       | _ => "dev"
       end) /\
  ((forall j, (j < 5)%nat -> (j <= length cwd)%nat ->
      fs (firstn (length cwd - j) cwd) = ViteConfig.Missing) ->
   ViteConfig.readVersionFromRoot fs cwd = "dev").
Proof.
  split; [apply ViteFacts.lookup_nonempty|split].
  - intros k Hk Hl Hne Hm. unfold ViteConfig.readVersionFromRoot.
    rewrite (ViteFacts.lookup_nearest fs k 5 cwd Hk Hl Hne Hm). reflexivity.
  - intros H. apply ViteFacts.lookup_all_missing. exact H.
Qed.

Definition sample_fs (dir : list string) : ViteConfig.version_file :=
  if bool_decide (dir = ["app"]) then ViteConfig.Content " 1.4.2
"
  else ViteConfig.Missing.

Lemma version_from_nearest_file_witness :
  ViteConfig.readVersionFromRoot sample_fs ["app"; "frontend"] = "1.4.2".
Proof.
  apply (proj1 (proj2 (version_from_nearest_file sample_fs ["app"; "frontend"])) 1%nat).
  - lia.
  - simpl. lia.
  - vm_compute. discriminate.
  - intros j Hj. assert (j = 0%nat) by lia. subst j. vm_compute. reflexivity.
Defined.
